(** * Pocket CSV export to Netscape bookmark file: a model of [main.py]

    The development embeds [_convert_data_to_html_bookmarks] and the library
    calls it makes ([str.splitlines], [csv.DictReader], [str.strip],
    [str.lower], the Jinja2 template with MarkupSafe escaping) as Rocq
    functions, and proves the properties of the conversion pipeline. *)

From Stdlib Require Import NArith Ascii String Bool Lia.
From stdpp Require Import gmap list.

Open Scope N_scope.

(** ** Text

    A Python [str] is a sequence of Unicode code points. *)

Abbreviation str := (list N).

(** A literal of the source, as code points. *)
Definition lit (s : string) : str := N_of_ascii <$> list_ascii_of_string s.
Arguments lit s%_string : simpl never.

Definition dq : str := [34].   (* the double-quote character *)
Definition nl : str := [10].   (* line feed *)

Definition BOM : N := 65279.   (* U+FEFF *)

(** [Py_UNICODE_ISSPACE]: the characters [str.strip()] removes. *)
Definition isspace (c : N) : bool :=
  ((9 <=? c) && (c <=? 13)) || ((28 <=? c) && (c <=? 32))
  || (c =? 133) || (c =? 160) || (c =? 5760)
  || ((8192 <=? c) && (c <=? 8202))
  || (c =? 8232) || (c =? 8233) || (c =? 8239) || (c =? 8287) || (c =? 12288).

Fixpoint lstrip (s : str) : str :=
  match s with
  | c :: rest => if isspace c then lstrip rest else s
  | [] => []
  end.

Definition rstrip (s : str) : str := rev (lstrip (rev s)).

(** [s.strip()] *)
Definition strip (s : str) : str := rstrip (lstrip s).

(** [Py_UNICODE_ISLINEBREAK]: the boundaries of [str.splitlines()]. *)
Definition islinebreak (c : N) : bool :=
  ((10 <=? c) && (c <=? 13)) || ((28 <=? c) && (c <=? 30))
  || (c =? 133) || (c =? 8232) || (c =? 8233).

(** [s.splitlines()]: [cur] is the current line, reversed.  CR LF is one
    boundary; a final line is kept only when it has a character. *)
Fixpoint splitlines_from (cur : str) (s : str) : list str :=
  match s with
  | [] => match cur with [] => [] | _ => [rev cur] end
  | c :: rest =>
      if islinebreak c then
        match rest with
        | c' :: rest' =>
            if (c =? 13) && (c' =? 10)
            then rev cur :: splitlines_from [] rest'
            else rev cur :: splitlines_from [] rest
        | [] => rev cur :: splitlines_from [] rest
        end
      else splitlines_from (c :: cur) rest
  end.

Definition splitlines (s : str) : list str := splitlines_from [] s.

Definition is_ascii (s : str) : bool := forallb (fun c => c <? 128) s.

Definition ascii_lower (c : N) : N :=
  if (65 <=? c) && (c <=? 90) then c + 32 else c.

Definition str_eqb (a b : str) : bool := bool_decide (a = b).

(** ** Exceptions the conversion can meet *)

Inductive exn :=
| FileNotFoundError
| OtherException (msg : str)     (* any other [Exception] of [open], [read] or [write] *)
| CsvError_field_limit           (* _csv.Error: field larger than field limit (131072) *)
| CsvError_newline               (* _csv.Error: new-line character seen in unquoted field *)
| AttributeError_strip.          (* 'NoneType' object has no attribute 'strip' *)

(** ** [csv.reader] with the default dialect

    [excel]: comma delimiter, double-quote quotechar, doublequote, no escapechar, no
    skipinitialspace, QUOTE_MINIMAL, not strict.  The states are those of
    [parse_process_char] that this dialect reaches. *)

Inductive ParserState :=
| START_RECORD | START_FIELD | IN_FIELD | IN_QUOTED_FIELD
| QUOTE_IN_QUOTED_FIELD | EAT_CRNL.

Record ReaderObj := {
  state : ParserState;
  field : str;            (* the current field, reversed *)
  field_len : N;
  fields : list str       (* the fields saved so far, reversed *)
}.

Definition field_limit : N := 131072.
Definition delimiter : N := 44.
Definition quotechar : N := 34.

Definition parse_reset : ReaderObj :=
  {| state := START_RECORD; field := []; field_len := 0; fields := [] |}.

Definition set_state (st : ParserState) (r : ReaderObj) : ReaderObj :=
  {| state := st; field := field r; field_len := field_len r; fields := fields r |}.

Definition parse_save_field (r : ReaderObj) : ReaderObj :=
  {| state := state r; field := []; field_len := 0;
     fields := rev (field r) :: fields r |}.

Definition parse_add_char (r : ReaderObj) (c : N) : exn + ReaderObj :=
  if field_limit <=? field_len r then inl CsvError_field_limit
  else inr {| state := state r; field := c :: field r;
              field_len := field_len r + 1; fields := fields r |}.

(** The input of [parse_process_char]: a character of the line, or the
    end-of-line marker fed after each line. *)
Inductive pchar := Ch (c : N) | EOL.

Definition is_crlf (c : N) : bool := (c =? 10) || (c =? 13).

Definition parse_process_char (r : ReaderObj) (p : pchar) : exn + ReaderObj :=
  let start_field (r : ReaderObj) :=
    match p with
    | EOL => inr (set_state START_RECORD (parse_save_field r))
    | Ch c =>
        if is_crlf c then inr (set_state EAT_CRNL (parse_save_field r))
        else if c =? quotechar then inr (set_state IN_QUOTED_FIELD r)
        else if c =? delimiter then inr (parse_save_field r)
        else match parse_add_char r c with
             | inl e => inl e
             | inr r' => inr (set_state IN_FIELD r')
             end
    end in
  match state r with
  | START_RECORD =>
      match p with
      | EOL => inr r
      | Ch c => if is_crlf c then inr (set_state EAT_CRNL r)
                else start_field (set_state START_FIELD r)
      end
  | START_FIELD => start_field r
  | IN_FIELD =>
      match p with
      | EOL => inr (set_state START_RECORD (parse_save_field r))
      | Ch c =>
          if is_crlf c then inr (set_state EAT_CRNL (parse_save_field r))
          else if c =? delimiter then inr (set_state START_FIELD (parse_save_field r))
          else parse_add_char r c
      end
  | IN_QUOTED_FIELD =>
      match p with
      | EOL => inr r
      | Ch c => if c =? quotechar then inr (set_state QUOTE_IN_QUOTED_FIELD r)
                else parse_add_char r c
      end
  | QUOTE_IN_QUOTED_FIELD =>
      match p with
      | EOL => inr (set_state START_RECORD (parse_save_field r))
      | Ch c =>
          if c =? quotechar then
            match parse_add_char r c with
            | inl e => inl e
            | inr r' => inr (set_state IN_QUOTED_FIELD r')
            end
          else if c =? delimiter then inr (set_state START_FIELD (parse_save_field r))
          else if is_crlf c then inr (set_state EAT_CRNL (parse_save_field r))
          else match parse_add_char r c with
               | inl e => inl e
               | inr r' => inr (set_state IN_FIELD r')
               end
      end
  | EAT_CRNL =>
      match p with
      | EOL => inr (set_state START_RECORD r)
      | Ch c => if is_crlf c then inr r else inl CsvError_newline
      end
  end.

(** One line of input: its characters, then [EOL]. *)
Fixpoint parse_line (r : ReaderObj) (line : str) : exn + ReaderObj :=
  match line with
  | [] => parse_process_char r EOL
  | c :: rest =>
      match parse_process_char r (Ch c) with
      | inl e => inl e
      | inr r' => parse_line r' rest
      end
  end.

Definition state_is_start (r : ReaderObj) : bool :=
  match state r with START_RECORD => true | _ => false end.

Definition record_pending (r : ReaderObj) : bool :=
  negb (field_len r =? 0)
  || match state r with IN_QUOTED_FIELD => true | _ => false end.

(** Iterating the reader over the lines ([Reader_iternext] until the input
    ends): the records it yields, in order, and the exception that ended the
    iteration, if one did.  A record ends when a line leaves the parser in
    [START_RECORD]; input that ends inside a record yields what was read. *)
Fixpoint reader_iter (r : ReaderObj) (lines : list str)
  : list (list str) * option exn :=
  match lines with
  | [] =>
      if record_pending r then ([rev (fields (parse_save_field r))], None)
      else ([], None)
  | line :: rest =>
      match parse_line r line with
      | inl e => ([], Some e)
      | inr r' =>
          if state_is_start r' then
            let '(recs, e) := reader_iter parse_reset rest in
            (rev (fields r') :: recs, e)
          else reader_iter r' rest
      end
  end.

Definition csv_reader (lines : list str) : list (list str) * option exn :=
  reader_iter parse_reset lines.

(** ** [csv.DictReader]

    A row is a dict: the header's names map to a field of the record or to
    [None] (the default [restval]) when the record is short; the key [None]
    (the default [restkey]) holds the fields beyond the header. *)

Inductive pyval := PyNone | PyStr (s : str).

Record row := {
  cols : gmap str pyval;
  restkey : option (list str)
}.

(** [dict(zip(fieldnames, r))]: a later duplicate name overwrites. *)
Definition dict_zip (fieldnames r : list str) : gmap str pyval :=
  foldl (fun d kv => <[kv.1 := PyStr kv.2]> d) ∅ (zip fieldnames r).

Definition make_row (fieldnames r : list str) : row :=
  let d := dict_zip fieldnames r in
  let lf := length fieldnames in
  let lr := length r in
  if (lf <? lr)%nat then {| cols := d; restkey := Some (drop lf r) |}
  else if (lr <? lf)%nat then
    {| cols := foldl (fun d key => <[key := PyNone]> d) d (drop lr fieldnames);
       restkey := None |}
  else {| cols := d; restkey := None |}.

(** Iterating [csv.DictReader(lines)]: the first record is the header, empty
    records (blank lines) are passed over, and an exception of the reader ends
    the iteration after the rows read before it. *)
Definition DictReader (lines : list str) : list row * option exn :=
  let '(recs, e) := csv_reader lines in
  match recs with
  | [] => ([], e)
  | fieldnames :: data =>
      (make_row fieldnames <$> filter (fun r => r ≠ []) data, e)
  end.

(** [row.get(key, default)] *)
Definition dict_get (d : row) (key : str) (default : pyval) : pyval :=
  match cols d !! key with
  | Some v => v
  | None => default
  end.

(** ** The bookmark template

    [BOOKMARK_TEMPLATE_CONTENT] as Jinja2 parses it: template data, and the
    [for] block with its expressions.  The environment keeps neither
    [trim_blocks] nor the final newline of the source. *)

Record bookmark_item := {
  url : pyval;
  title : pyval;
  add_date : pyval;
  tags : pyval;
  toread : bool
}.

Inductive field_name := F_url | F_title | F_add_date | F_tags.

Inductive item_node :=
| Text (s : str)
| Var (f : field_name) (e_filter : bool)   (* {{ bookmark.f }}, or with the e filter *)
| If_toread (body : str).                  (* {% if bookmark.toread %} body {% endif %} *)

Inductive node :=
| Data (s : str)
| For_bookmarks (body : list item_node).

Definition TOREAD_attr : str := lit " TOREAD=" ++ dq ++ lit "yes" ++ dq.

Definition preamble : str :=
  lit "<!DOCTYPE NETSCAPE-Bookmark-file-1>" ++ nl
  ++ lit "<!-- This is an automatically generated file. -->" ++ nl
  ++ lit "<META HTTP-EQUIV=" ++ dq ++ lit "Content-Type" ++ dq
  ++ lit " CONTENT=" ++ dq ++ lit "text/html; charset=UTF-8" ++ dq ++ lit ">" ++ nl
  ++ lit "<TITLE>Bookmarks</TITLE>" ++ nl
  ++ lit "<H1>Pocket Non-Archived Bookmarks</H1>" ++ nl
  ++ lit "<DL><p>" ++ nl.

Definition item_template : list item_node :=
  [ Text (nl ++ lit "    <DT><A HREF=" ++ dq); Var F_url true;
    Text (dq ++ lit " ADD_DATE=" ++ dq); Var F_add_date false;
    Text (dq ++ lit " TAGS=" ++ dq); Var F_tags true;
    Text dq; If_toread TOREAD_attr;
    Text (lit ">"); Var F_title true;
    Text (lit "</A>" ++ nl) ].

Definition closing : str := nl ++ lit "</DL><p>".

Definition BOOKMARK_TEMPLATE_CONTENT : list node :=
  [ Data preamble; For_bookmarks item_template; Data closing ].

(** [str(v)] *)
Definition py_str (v : pyval) : str :=
  match v with
  | PyNone => lit "None"
  | PyStr s => s
  end.

(** [s.replace(c, by)] for a one-character [c]. *)
Definition replace_char (c : N) (by_ : str) (s : str) : str :=
  flat_map (fun x => if x =? c then by_ else [x]) s.

(** [markupsafe.escape]: the ampersand first, then the other four. *)
Definition escape (s : str) : str :=
  replace_char 34 (lit "&#34;")
    (replace_char 39 (lit "&#39;")
       (replace_char 60 (lit "&lt;")
          (replace_char 62 (lit "&gt;")
             (replace_char 38 (lit "&amp;") s)))).

(** [select_autoescape(['html', 'xml'])] turns escaping on for a template
    made from a string. *)
Definition autoescape : bool := true.

Definition get_field (f : field_name) (b : bookmark_item) : pyval :=
  match f with
  | F_url => url b
  | F_title => title b
  | F_add_date => add_date b
  | F_tags => tags b
  end.

(** An expression's output: the [e] filter escapes and marks the result safe;
    without it the value is escaped when [autoescape] is on. *)
Definition render_var (v : pyval) (e_filter : bool) : str :=
  if e_filter then escape (py_str v)
  else if autoescape then escape (py_str v)
  else py_str v.

Definition render_item_node (b : bookmark_item) (n : item_node) : str :=
  match n with
  | Text s => s
  | Var f e_filter => render_var (get_field f b) e_filter
  | If_toread body => if toread b then body else []
  end.

Definition render_item (body : list item_node) (b : bookmark_item) : str :=
  flat_map (render_item_node b) body.

Definition render_node (bookmarks : list bookmark_item) (n : node) : str :=
  match n with
  | Data s => s
  | For_bookmarks body => flat_map (render_item body) bookmarks
  end.

(** [template.render(bookmarks=bookmarks)] *)
Definition render (template : list node) (bookmarks : list bookmark_item) : str :=
  flat_map (render_node bookmarks) template.

(** ** The conversion *)

(** What the run does to the outside: its console messages and the write of
    the output file, in order. *)
Inductive event :=
| Echo_processing (p : str)               (* Processing file: p... *)
| Error_not_found (p : str)               (* Error: File not found - p. *)
| Error_processing (p : str) (e : exn)    (* Error processing file p: e *)
| Write_file (p : str) (content : str)    (* open(p, 'w') and write(content) *)
| Error_writing (p : str) (e : exn).      (* Error writing to output file p: e *)

(** The files the run meets: what opening and reading a path as UTF-8 text
    gives, and whether writing a text to a path raises. *)
Record world := {
  read_file : str -> exn + str;
  write_file : str -> str -> option exn
}.

(** The local variables of [_convert_data_to_html_bookmarks] that the loop
    updates, with the console. *)
Record locals := {
  processed_count : nat;
  skipped_archived_count : nat;
  bookmarks_data : list bookmark_item;
  console : list event
}.

Definition initial : locals :=
  {| processed_count := 0; skipped_archived_count := 0;
     bookmarks_data := []; console := [] |}.

Definition emit (ev : event) (st : locals) : locals :=
  {| processed_count := processed_count st;
     skipped_archived_count := skipped_archived_count st;
     bookmarks_data := bookmarks_data st;
     console := console st ++ [ev] |}.

Definition skip_row (st : locals) : locals :=
  {| processed_count := processed_count st;
     skipped_archived_count := S (skipped_archived_count st);
     bookmarks_data := bookmarks_data st;
     console := console st |}.

Definition append_bookmark (b : bookmark_item) (st : locals) : locals :=
  {| processed_count := S (processed_count st);
     skipped_archived_count := skipped_archived_count st;
     bookmarks_data := bookmarks_data st ++ [b];
     console := console st |}.

(** The two [except] clauses of the loop over the files. *)
Definition error_message (p : str) (e : exn) : event :=
  match e with
  | FileNotFoundError => Error_not_found p
  | _ => Error_processing p e
  end.

Definition except_clauses (p : str) (e : exn) (st : locals) : locals :=
  emit (error_message p e) st.

(** [content.startswith(BOM)] and [content[1:]] *)
Definition strip_bom (content : str) : str :=
  match content with
  | c :: rest => if c =? BOM then rest else content
  | [] => content
  end.

Inductive row_outcome :=
| Row_skipped
| Row_entity (b : bookmark_item)
| Row_raised (e : exn).

(** [str.lower()] lowers an ASCII string character by character; for any
    other string it consults the Unicode character database, which is taken
    as given. *)
Class UnicodeData := unicode_lower : str -> str.

Section Conversion.

Context `{UnicodeData}.

Definition lower (s : str) : str :=
  if is_ascii s then ascii_lower <$> s else unicode_lower s.

(** The body of the loop over the rows. *)
Definition process_row (r : row) : row_outcome :=
  match dict_get r (lit "status") (PyStr []) with
  | PyNone => Row_raised AttributeError_strip
  | PyStr s =>
      let status := lower (strip s) in
      if str_eqb status (lit "archive") then Row_skipped
      else Row_entity {| url := dict_get r (lit "url") (PyStr []);
                         title := dict_get r (lit "title") (PyStr []);
                         add_date := dict_get r (lit "time_added") (PyStr []);
                         tags := dict_get r (lit "tags") (PyStr []);
                         toread := true |}
  end.

(** [for row in csvreader]: the rows in order, until one raises. *)
Fixpoint for_rows (rows : list row) (st : locals) : locals * option exn :=
  match rows with
  | [] => (st, None)
  | r :: rest =>
      match process_row r with
      | Row_skipped => for_rows rest (skip_row st)
      | Row_entity b => for_rows rest (append_bookmark b st)
      | Row_raised e => (st, Some e)
      end
  end.

(** The [with] block on a file that was read.  The reader is lazy: an
    exception of its own comes after the rows before it went through the
    loop body, and only when none of them raised. *)
Definition process_content (content : str) (st : locals) : locals * option exn :=
  let '(rows, e_csv) := DictReader (splitlines (strip_bom content)) in
  let '(st', e_row) := for_rows rows st in
  (st', match e_row with Some e => Some e | None => e_csv end).

(** One turn of [for csv_filepath in csv_filepaths]. *)
Definition process_file (w : world) (st : locals) (p : str) : locals :=
  let st := emit (Echo_processing p) st in
  match read_file w p with
  | inl e => except_clauses p e st
  | inr content =>
      match process_content content st with
      | (st', Some e) => except_clauses p e st'
      | (st', None) => st'
      end
  end.

(** *** What a file contributes

    The rows the loop body handles are those before the first one that
    raises; each is skipped or gives one entity. *)

Fixpoint handled (rows : list row) : list row :=
  match rows with
  | [] => []
  | r :: rest =>
      match process_row r with
      | Row_raised _ => []
      | _ => r :: handled rest
      end
  end.

Fixpoint first_raise (rows : list row) : option exn :=
  match rows with
  | [] => None
  | r :: rest =>
      match process_row r with
      | Row_raised e => Some e
      | _ => first_raise rest
      end
  end.

Definition entity_of (r : row) : option bookmark_item :=
  match process_row r with
  | Row_entity b => Some b
  | _ => None
  end.

Definition is_skipped (r : row) : bool :=
  match process_row r with
  | Row_skipped => true
  | _ => false
  end.

Definition entities_of (rows : list row) : list bookmark_item :=
  omap entity_of rows.

Definition skips_of (rows : list row) : nat :=
  length (List.filter is_skipped rows).

(** The data rows of a file's text: what iterating the [DictReader] yields. *)
Definition file_rows (content : str) : list row :=
  (DictReader (splitlines (strip_bom content))).1.

(** The exception that ends the [with] block on a file's text, if any. *)
Definition file_error (content : str) : option exn :=
  match first_raise (file_rows content) with
  | Some e => Some e
  | None => (DictReader (splitlines (strip_bom content))).2
  end.

(** The data rows of a path: none when it cannot be read. *)
Definition rows_of_read (r : exn + str) : list row :=
  match r with
  | inl _ => []
  | inr content => file_rows content
  end.

Definition data_rows (w : world) (p : str) : list row :=
  rows_of_read (read_file w p).

Definition handled_rows (w : world) (p : str) : list row :=
  handled (data_rows w p).

(** The exception a path's turn of the loop catches, if any. *)
Definition error_of_read (r : exn + str) : option exn :=
  match r with
  | inl e => Some e
  | inr content => file_error content
  end.

(** The console lines of a path's turn. *)
Definition file_events (w : world) (p : str) : list event :=
  Echo_processing p ::
  match error_of_read (read_file w p) with
  | Some e => [error_message p e]
  | None => []
  end.

(** The state after a contribution of rows [hs] and console lines [evs]. *)
Definition advance (st : locals) (hs : list row) (evs : list event) : locals :=
  {| processed_count := processed_count st + length (entities_of hs);
     skipped_archived_count := skipped_archived_count st + skips_of hs;
     bookmarks_data := bookmarks_data st ++ entities_of hs;
     console := console st ++ evs |}.

Definition extract (w : world) (csv_filepaths : list str) : locals :=
  foldl (process_file w) initial csv_filepaths.

(** The value returned, with the rendered document and the events. *)
Record outcome := {
  returned : nat * nat;
  html_output : str;
  events : list event
}.

Definition _convert_data_to_html_bookmarks
    (w : world) (csv_filepaths : list str) (output_html_filepath : str) : outcome :=
  let st := extract w csv_filepaths in
  let html := render BOOKMARK_TEMPLATE_CONTENT (bookmarks_data st) in
  let st := emit (Write_file output_html_filepath html) st in
  match write_file w output_html_filepath html with
  | Some e =>
      {| returned := (0%nat, skipped_archived_count st);
         html_output := html;
         events := console (emit (Error_writing output_html_filepath e) st) |}
  | None =>
      {| returned := (processed_count st, skipped_archived_count st);
         html_output := html;
         events := console st |}
  end.

End Conversion.

(** The header a file's text gives the [DictReader], when it has one. *)
Definition header_of (content : str) : option (list str) :=
  head (csv_reader (splitlines (strip_bom content))).1.

(** ** Unescaping

    [html.unescape] on the character references the renderer can emit: the
    numeric references of the two quotes and the named references of the
    five escaped characters.  Any other ampersand is kept as it is (where
    Python looks the name up in its table of HTML5 entities). *)

Definition charrefs : list (str * N) :=
  Eval vm_compute in
  [ (lit "amp;", 38); (lit "lt;", 60); (lit "gt;", 62);
    (lit "quot;", 34); (lit "apos;", 39); (lit "#34;", 34); (lit "#39;", 39) ].

Fixpoint starts_with (prefix s : str) : bool :=
  match prefix, s with
  | [], _ => true
  | p :: prefix', c :: s' => (p =? c) && starts_with prefix' s'
  | _ :: _, [] => false
  end.

(** The reference that starts [s], after its ampersand: the character it
    stands for and how many characters it takes. *)
Fixpoint charref_at (table : list (str * N)) (s : str) : option (N * nat) :=
  match table with
  | [] => None
  | (name, c) :: table' =>
      if starts_with name s then Some (c, length name) else charref_at table' s
  end.

(** [skip] characters of a reference just replaced are still to be passed. *)
Fixpoint unescape_from (skip : nat) (s : str) : str :=
  match s with
  | [] => []
  | c :: rest =>
      match skip with
      | S k => unescape_from k rest
      | O =>
          if c =? 38 then
            match charref_at charrefs rest with
            | Some (c', n) => c' :: unescape_from n rest
            | None => c :: unescape_from 0 rest
            end
          else c :: unescape_from 0 rest
      end
  end.

Definition html_unescape (s : str) : str := unescape_from 0 s.

(** [needle in s] *)
Fixpoint occurs (needle s : str) : bool :=
  starts_with needle s
  || match s with
     | [] => false
     | _ :: rest => occurs needle rest
     end.

Definition noquote (s : str) : bool := forallb (fun c => negb (c =? 34)) s.

(** What [escape] puts for one character. *)
Definition escape_char (c : N) : str :=
  if c =? 38 then lit "&amp;"
  else if c =? 62 then lit "&gt;"
  else if c =? 60 then lit "&lt;"
  else if c =? 39 then lit "&#39;"
  else if c =? 34 then lit "&#34;"
  else [c].

(** The characters that may not appear raw in escaped text, the ampersand
    apart (it starts the references). *)
Definition special (c : N) : bool :=
  (c =? 60) || (c =? 62) || (c =? 34) || (c =? 39).

(** The line the template's [for] block gives for one bookmark. *)
Definition anchor_line (b : bookmark_item) : str :=
  nl ++ lit "    <DT><A HREF=" ++ dq ++ escape (py_str (url b)) ++ dq
  ++ lit " ADD_DATE=" ++ dq ++ escape (py_str (add_date b)) ++ dq
  ++ lit " TAGS=" ++ dq ++ escape (py_str (tags b)) ++ dq
  ++ (if toread b then TOREAD_attr else [])
  ++ lit ">" ++ escape (py_str (title b)) ++ lit "</A>" ++ nl.

(** ** Example inputs *)

(** The export of the specification's example: one unread and one archived
    bookmark, the tags of the first quoted. *)
Definition pocket_csv : str :=
  lit "status,url,title,time_added,tags" ++ nl
  ++ lit "unread,http://a.com,A,100," ++ dq ++ lit "x,y" ++ dq ++ nl
  ++ lit "archive,http://b.com,B,200," ++ nl.

(** An export whose second data row has no status field. *)
Definition short_row_csv : str :=
  lit "url,status" ++ nl
  ++ lit "http://a,unread" ++ nl
  ++ lit "http://b" ++ nl.

(** An export without a tags column. *)
Definition no_tags_csv : str :=
  lit "url,title,status" ++ nl
  ++ lit "http://c,C,unread" ++ nl.

Definition header_only_csv : str := lit "status,url" ++ nl.

Definition example_files (p : str) : exn + str :=
  if str_eqb p (lit "pocket.csv") then inr pocket_csv
  else if str_eqb p (lit "short.csv") then inr short_row_csv
  else if str_eqb p (lit "no_tags.csv") then inr no_tags_csv
  else if str_eqb p (lit "header_only.csv") then inr header_only_csv
  else inl FileNotFoundError.

Definition writable_world : world :=
  {| read_file := example_files; write_file := fun _ _ => None |}.

Definition permission_denied : exn := OtherException (lit "[Errno 13] Permission denied").

Definition unwritable_world : world :=
  {| read_file := example_files; write_file := fun _ _ => Some permission_denied |}.

(** The example texts are ASCII, so the Unicode part of [lower] is never
    consulted on them. *)
Definition ascii_casing : UnicodeData := fun s => s.

(** ** Notions for the further properties *)

(** Text that has none of the five characters [escape] replaces. *)
Definition plain_text (s : str) : bool :=
  forallb (fun c => negb ((c =? 38) || special c)) s.

(** How many times a character occurs. *)
Definition count (c : N) (s : str) : nat := length (List.filter (N.eqb c) s).

(** Lines joined with a line ending after each. *)
Definition unlines (eol : str) (lines : list str) : str :=
  flat_map (fun l => l ++ eol) lines.

Definition no_linebreak (s : str) : bool :=
  forallb (fun c => negb (islinebreak c)) s.

(** A line ending: one line-boundary character, or CR LF. *)
Definition is_line_ending (eol : str) : bool :=
  match eol with
  | [c] => islinebreak c
  | [c; c'] => (c =? 13) && (c' =? 10)
  | _ => false
  end.

(** *** Writing records

    The inverse direction of the reader, to state what it reads back: a
    field is written bare or between quotes with its quotes doubled, the
    fields of a record are joined by the delimiter. *)

Definition double_quotes (f : str) : str :=
  flat_map (fun c => if c =? quotechar then [quotechar; quotechar] else [c]) f.

Definition quoted (f : str) : str := quotechar :: double_quotes f ++ [quotechar].

(** A character a bare field may hold. *)
Definition plain_char (c : N) : bool :=
  negb ((c =? delimiter) || (c =? quotechar) || is_crlf c).

Definition plain_field (f : str) : bool := forallb plain_char f.

(** A field with the way it is written: [true] for quoted. *)
Definition written (qf : bool * str) : str :=
  if qf.1 then quoted qf.2 else qf.2.

Definition writable_field (qf : bool * str) : bool :=
  (qf.1 || plain_field qf.2) && (N.of_nat (length qf.2) <=? field_limit).

Fixpoint join (sep : str) (parts : list str) : str :=
  match parts with
  | [] => []
  | [x] => x
  | x :: rest => x ++ sep ++ join sep rest
  end.

Definition record_line (rec : list (bool * str)) : str :=
  join [delimiter] (written <$> rec).

(** A record that can be written on one line and read back: the record of
    one bare empty field would be written as an empty line, which reads as
    the empty record. *)
Definition writable_record (rec : list (bool * str)) : bool :=
  forallb writable_field rec
  && match rec with
     | [(false, [])] => false
     | _ => true
     end.

Definition record_fields (rec : list (bool * str)) : list str := snd <$> rec.

(** The characters of a line through the parser, without the end of line. *)
Fixpoint feed (r : ReaderObj) (s : str) : exn + ReaderObj :=
  match s with
  | [] => inr r
  | c :: rest =>
      match parse_process_char r (Ch c) with
      | inl e => inl e
      | inr r' => feed r' rest
      end
  end.

(** The parser between two fields, with the fields [fl] saved so far. *)
Definition between_fields (st : ParserState) (fl : list str) : ReaderObj :=
  {| state := st; field := []; field_len := 0; fields := fl |}.

(** ** The command

    [convert]: what the command prints around the call of the core
    function.  [exists_after] tells whether a path exists when the core
    function has returned ([output_file.exists()]). *)

Inductive cli_line :=
| Starting                      (* Starting conversion... *)
| Core (ev : event)             (* a line or the write of the core function *)
| Conversion_complete           (* Conversion complete. *)
| Processed_line (n : nat)      (* Processed n non-archived bookmarks. *)
| Skipped_line (n : nat)        (* Skipped n archived bookmarks. *)
| Saved_as (p : str)            (* HTML file saved as: p *)
| Nothing_processed.            (* Conversion finished, but no bookmarks were
                                   processed or output file not created. *)

(** The lines after the call. *)
Definition report (processed_count skipped_archived_count : nat)
    (output_exists : bool) (output_file : str) : list cli_line :=
  if (0 <? processed_count)%nat || output_exists
  then [ Conversion_complete; Processed_line processed_count;
         Skipped_line skipped_archived_count; Saved_as output_file ]
  else [ Nothing_processed ].

Section Command.

Context `{UnicodeData}.

Definition convert (w : world) (exists_after : str -> bool)
    (csv_files : list str) (output_file : str) : list cli_line :=
  let o := _convert_data_to_html_bookmarks w csv_files output_file in
  let '(processed_count, skipped_archived_count) := returned o in
  Starting :: (Core <$> events o)
  ++ report processed_count skipped_archived_count (exists_after output_file)
       output_file.

End Command.

(** ** More example inputs *)

(** An export whose header spells the status column with a capital. *)
Definition capital_status_csv : str :=
  lit "Status,url" ++ nl
  ++ lit "archive,http://x" ++ nl
  ++ lit "unread,http://y" ++ nl.

(** A row whose status is the word in mixed case between a tab, spaces and
    a no-break space. *)
Definition padded_status_row : row :=
  make_row [lit "status"; lit "url"]
           [[9; 32] ++ lit "ArChIvE" ++ [32; 160]; lit "http://x"].

(** A row of a header with status, url and title whose record has only the
    status. *)
Definition status_only_row : row :=
  make_row [lit "status"; lit "url"; lit "title"] [lit "unread"].

(** Records to write: a bare pair, an empty line, and a record whose first
    field holds quotes and the delimiter. *)
Definition written_records : list (list (bool * str)) :=
  [ [(false, lit "title"); (false, lit "tags")];
    [];
    [(true, lit "He said " ++ dq ++ lit "hi" ++ dq ++ lit ", ok"); (false, lit "x")] ].

Definition written_header : list (bool * str) :=
  [(false, lit "status"); (false, lit "url"); (true, lit "title")].

Definition written_data : list (list (bool * str)) :=
  [ [(false, lit "unread"); (false, lit "http://a"); (true, lit "A, B")];
    [];
    [(false, lit "archive"); (false, lit "http://b"); (false, lit "B")] ].

(** A file with a byte-order mark and CR LF line endings. *)
Definition written_csv : str :=
  BOM :: unlines [13; 10] (record_line <$> written_header :: written_data).

(** A field one character longer than the reader's limit. *)
Definition oversized_field : str := repeat 97 (N.to_nat 131073).

(** An output path at which a file exists whatever the run does. *)
Definition stale_output (p : str) : bool := true.

(** ** The status of a row

    What the loop body reads as the status: the text under the status key,
    the empty text when the dict has no such key, and no text when the
    reader filled the column with [None]. *)
Definition status_text (r : row) : option str :=
  match cols r !! lit "status" with
  | None => Some []
  | Some (PyStr s) => Some s
  | Some PyNone => None
  end.

Section Status.

Context `{UnicodeData}.

(** A row whose status text, stripped and lowered, is the literal. *)
Definition archived (r : row) : bool :=
  match status_text r with
  | Some s => str_eqb (lower (strip s)) (lit "archive")
  | None => false
  end.

End Status.

(** ** Example inputs of the revised claims *)

(** An export whose first data row has no status field and whose later rows
    are an archived and an unread bookmark. *)
Definition rows_after_failure_csv : str :=
  lit "url,status" ++ nl
  ++ lit "http://a" ++ nl
  ++ lit "http://b,archive" ++ nl
  ++ lit "http://c,unread" ++ nl.

(** An export with a tags column whose data row ends before it. *)
Definition short_tags_csv : str :=
  lit "status,url,tags" ++ nl
  ++ lit "unread,http://a" ++ nl.

Definition revision_files (p : str) : exn + str :=
  if str_eqb p (lit "after_failure.csv") then inr rows_after_failure_csv
  else if str_eqb p (lit "short_tags.csv") then inr short_tags_csv
  else if str_eqb p (lit "copy.csv") then inr pocket_csv
  else inl FileNotFoundError.

Definition revision_world : world :=
  {| read_file := revision_files; write_file := fun _ _ => None |}.

(** * Properties *)

(** ** Escaping *)

Lemma replace_char_flat_map c by_ (f : N -> str) s :
  replace_char c by_ (flat_map f s) = flat_map (fun x => replace_char c by_ (f x)) s.
Proof.
  unfold replace_char. induction s as [|a s IH]; simpl; [reflexivity|].
  rewrite flat_map_app. f_equal. exact IH.
Qed.

Lemma escape_char_spec c :
  replace_char 34 (lit "&#34;")
    (replace_char 39 (lit "&#39;")
       (replace_char 60 (lit "&lt;")
          (replace_char 62 (lit "&gt;")
             (if c =? 38 then lit "&amp;" else [c])))) = escape_char c.
Proof.
  unfold escape_char.
  destruct (N.eqb_spec c 38) as [->|H38]; [reflexivity|].
  destruct (N.eqb_spec c 62) as [->|H62]; [reflexivity|].
  destruct (N.eqb_spec c 60) as [->|H60]; [reflexivity|].
  destruct (N.eqb_spec c 39) as [->|H39]; [reflexivity|].
  destruct (N.eqb_spec c 34) as [->|H34]; [reflexivity|].
  unfold replace_char; simpl.
  apply N.eqb_neq in H62, H60, H39, H34.
  rewrite H62; simpl. rewrite H60; simpl. rewrite H39; simpl. rewrite H34.
  reflexivity.
Qed.

Lemma escape_flat_map s : escape s = flat_map escape_char s.
Proof.
  unfold escape. unfold replace_char at 5.
  rewrite !replace_char_flat_map.
  induction s as [|a s IH]; simpl; [reflexivity|].
  rewrite IH. f_equal. apply escape_char_spec.
Qed.

Lemma escape_app s t : escape (s ++ t) = escape s ++ escape t.
Proof. rewrite !escape_flat_map. apply flat_map_app. Qed.

Lemma escape_char_no_special c : forallb (fun x => negb (special x)) (escape_char c) = true.
Proof.
  unfold escape_char.
  destruct (N.eqb_spec c 38) as [->|H38]; [reflexivity|].
  destruct (N.eqb_spec c 62) as [->|H62]; [reflexivity|].
  destruct (N.eqb_spec c 60) as [->|H60]; [reflexivity|].
  destruct (N.eqb_spec c 39) as [->|H39]; [reflexivity|].
  destruct (N.eqb_spec c 34) as [->|H34]; [reflexivity|].
  simpl. unfold special.
  apply N.eqb_neq in H62, H60, H39, H34.
  rewrite H62, H60, H39, H34. reflexivity.
Qed.

Lemma escape_no_special s : forallb (fun x => negb (special x)) (escape s) = true.
Proof.
  rewrite escape_flat_map.
  induction s as [|a s IH]; simpl; [reflexivity|].
  rewrite forallb_app, escape_char_no_special. exact IH.
Qed.

Lemma unescape_escape_char c t :
  unescape_from 0 (escape_char c ++ t) = c :: unescape_from 0 t.
Proof.
  unfold escape_char.
  destruct (N.eqb_spec c 38) as [->|H38]; [reflexivity|].
  destruct (N.eqb_spec c 62) as [->|H62]; [reflexivity|].
  destruct (N.eqb_spec c 60) as [->|H60]; [reflexivity|].
  destruct (N.eqb_spec c 39) as [->|H39]; [reflexivity|].
  destruct (N.eqb_spec c 34) as [->|H34]; [reflexivity|].
  simpl. apply N.eqb_neq in H38. rewrite H38. reflexivity.
Qed.

Lemma unescape_escape s : html_unescape (escape s) = s.
Proof.
  unfold html_unescape. rewrite escape_flat_map.
  induction s as [|a s IH]; simpl; [reflexivity|].
  rewrite unescape_escape_char. f_equal. exact IH.
Qed.

(** ** Rendering *)

Lemma render_item_anchor_line b : render_item item_template b = anchor_line b.
Proof.
  unfold render_item, item_template, anchor_line.
  cbn [flat_map render_item_node get_field render_var autoescape].
  rewrite app_nil_r. repeat rewrite <- app_assoc. reflexivity.
Qed.

Lemma render_document bs :
  render BOOKMARK_TEMPLATE_CONTENT bs
  = preamble ++ flat_map anchor_line bs ++ closing.
Proof.
  assert (Hitems : flat_map (render_item item_template) bs = flat_map anchor_line bs).
  { induction bs as [|b bs IH]; cbn [flat_map]; [reflexivity|].
    rewrite render_item_anchor_line, IH. reflexivity. }
  unfold render, BOOKMARK_TEMPLATE_CONTENT. cbn [flat_map render_node].
  rewrite app_nil_r, Hitems. reflexivity.
Qed.

(** C3: the values of [url], [tags] and [title] enter the document through
    [escape], which replaces each of the five characters by its reference
    and leaves no raw angle bracket or quote; unescaping the escaped text of
    any string gives the string back, as for the title made of a script tag,
    an ampersand and the two quotes. *)
Theorem interpolated_fields_escaped_roundtrip :
  (forall bs, render BOOKMARK_TEMPLATE_CONTENT bs
              = preamble ++ flat_map anchor_line bs ++ closing)
  /\ (forall b u g t,
         url b = PyStr u -> tags b = PyStr g -> title b = PyStr t ->
         exists d,
           anchor_line b
           = nl ++ lit "    <DT><A HREF=" ++ dq ++ escape u ++ dq
             ++ lit " ADD_DATE=" ++ dq ++ d ++ dq
             ++ lit " TAGS=" ++ dq ++ escape g ++ dq
             ++ (if toread b then TOREAD_attr else [])
             ++ lit ">" ++ escape t ++ lit "</A>" ++ nl)
  /\ (forall s, escape s = flat_map escape_char s)
  /\ (escape_char 38 = lit "&amp;" /\ escape_char 60 = lit "&lt;"
      /\ escape_char 62 = lit "&gt;" /\ escape_char 34 = lit "&#34;"
      /\ escape_char 39 = lit "&#39;")
  /\ (forall s, forallb (fun c => negb (special c)) (escape s) = true)
  /\ (forall s, html_unescape (escape s) = s)
  /\ (let t := lit "<script>&" ++ dq ++ lit "'" in
      escape t = lit "&lt;script&gt;&amp;&#34;&#39;"
      /\ html_unescape (escape t) = t).
Proof.
  split; [exact render_document|].
  split.
  { intros b u g t Hu Hg Ht. exists (escape (py_str (add_date b))).
    unfold anchor_line. rewrite Hu, Hg, Ht. reflexivity. }
  split; [exact escape_flat_map|].
  split; [repeat split|].
  split; [exact escape_no_special|].
  split; [exact unescape_escape|].
  split; reflexivity.
Qed.

(** ** Finding the to-read attribute in a line *)

Lemma starts_with_spec p s : starts_with p s = true <-> exists t, s = p ++ t.
Proof.
  revert s. induction p as [|a p IH]; intros s; simpl.
  - split; [intros _; exists s; reflexivity|reflexivity].
  - destruct s as [|c s].
    + split; [discriminate|intros (t & Ht); discriminate].
    + rewrite andb_true_iff, N.eqb_eq, IH. split.
      * intros (-> & t & ->). exists t. reflexivity.
      * intros (t & [= -> ->]). split; [reflexivity|exists t; reflexivity].
Qed.

Lemma occurs_starts n s : starts_with n s = true -> occurs n s = true.
Proof. intros Hs. destruct s; simpl in *; rewrite Hs; reflexivity. Qed.

Lemma occurs_app_r n l r : occurs n r = true -> occurs n (l ++ r) = true.
Proof.
  intros Hr. induction l as [|a l IH]; [exact Hr|].
  cbn [app occurs]. rewrite IH. apply orb_true_r.
Qed.

Lemma occurs_spec n s :
  occurs n s = true <-> exists pre post, s = pre ++ n ++ post.
Proof.
  split.
  - induction s as [|c s IH]; cbn [occurs]; rewrite orb_true_iff.
    + intros [Hs|Hf]; [|discriminate].
      apply starts_with_spec in Hs as (t & Ht). exists [], t. exact Ht.
    + intros [Hs|Ho].
      * apply starts_with_spec in Hs as (t & Ht). exists [], t. exact Ht.
      * destruct (IH Ho) as (pre & post & ->). exists (c :: pre), post. reflexivity.
  - intros (pre & post & ->). apply occurs_app_r, occurs_starts, starts_with_spec.
    exists post. reflexivity.
Qed.

Lemma noquote_cons c s : noquote (c :: s) = true -> (c =? 34) = false /\ noquote s = true.
Proof.
  unfold noquote; cbn [forallb]. rewrite andb_true_iff, negb_true_iff. tauto.
Qed.

(** A needle with a quote starts inside quote-free text only if the text is
    the needle's part before its first quote. *)
Lemma starts_with_before_quote X Y E R :
  noquote X = true -> noquote E = true ->
  starts_with (X ++ 34 :: Y) (E ++ 34 :: R) = true ->
  starts_with Y R = true.
Proof.
  revert E. induction X as [|x X IH]; intros [|e E] HX HE; cbn [app starts_with].
  - rewrite N.eqb_refl. trivial.
  - apply noquote_cons in HE as [He _]. rewrite N.eqb_sym, He. discriminate.
  - apply noquote_cons in HX as [Hx _]. rewrite Hx. discriminate.
  - apply noquote_cons in HX as [_ HX]. apply noquote_cons in HE as [_ HE].
    rewrite andb_true_iff. intros [_ Hs]. exact (IH E HX HE Hs).
Qed.

Lemma occurs_skip_quote_free n X Y E R :
  n = X ++ 34 :: Y ->
  noquote X = true -> noquote E = true -> starts_with Y R = false ->
  occurs n (E ++ 34 :: R) = occurs n (34 :: R).
Proof.
  intros -> HX HE HY. induction E as [|e E IH]; [reflexivity|].
  cbn [app occurs].
  destruct (starts_with (X ++ 34 :: Y) (e :: E ++ 34 :: R)) eqn:Hs.
  - apply (starts_with_before_quote X Y (e :: E) R HX HE) in Hs. congruence.
  - apply noquote_cons in HE as [_ HE]. exact (IH HE).
Qed.

Lemma starts_with_quote_free X Y s :
  noquote s = true -> starts_with (X ++ 34 :: Y) s = false.
Proof.
  revert s. induction X as [|x X IH]; intros [|c s] Hs; cbn [app starts_with];
    try reflexivity.
  - apply noquote_cons in Hs as [Hc _]. rewrite N.eqb_sym, Hc. reflexivity.
  - apply noquote_cons in Hs as [_ Hs]. rewrite (IH s Hs). apply andb_false_r.
Qed.

Lemma occurs_quote_free n X Y s :
  n = X ++ 34 :: Y -> noquote s = true -> occurs n s = false.
Proof.
  intros -> Hs. induction s as [|c s IH]; cbn [occurs].
  - rewrite (starts_with_quote_free X Y [] Hs). reflexivity.
  - rewrite (starts_with_quote_free X Y (c :: s) Hs).
    apply noquote_cons in Hs as [_ Hs]. exact (IH Hs).
Qed.

Lemma escape_noquote s : noquote (escape s) = true.
Proof.
  pose proof (escape_no_special s) as Hs. unfold noquote.
  rewrite forallb_forall in *. intros c Hc. specialize (Hs c Hc).
  unfold special in Hs. rewrite !negb_orb, !andb_true_iff in Hs. tauto.
Qed.

Ltac literal_chars :=
  repeat match goal with
         | |- context [lit ?s] =>
             let v := eval vm_compute in (lit s) in change (lit s) with v
         end;
  unfold nl, dq.

Lemma occurs_cons_false n c l :
  starts_with n (c :: l) = false -> occurs n (c :: l) = occurs n l.
Proof. intros Hs. cbn [occurs]. rewrite Hs. reflexivity. Qed.

Ltac skip_literal := repeat (rewrite occurs_cons_false by reflexivity).

Ltac skip_escaped :=
  rewrite (occurs_skip_quote_free _ [32; 84; 79; 82; 69; 65; 68; 61] [121; 101; 115; 34])
    by (reflexivity || assumption).

Lemma toread_attr_occurs b : occurs TOREAD_attr (anchor_line b) = toread b.
Proof.
  unfold anchor_line. destruct (toread b).
  - do 13 apply occurs_app_r. apply occurs_starts, starts_with_spec. eauto.
  - pose proof (escape_noquote (py_str (url b))) as H1.
    pose proof (escape_noquote (py_str (add_date b))) as H2.
    pose proof (escape_noquote (py_str (tags b))) as H3.
    pose proof (escape_noquote (py_str (title b))) as H4.
    unfold TOREAD_attr. literal_chars. cbn [app].
    skip_literal. skip_escaped. skip_literal. skip_escaped.
    skip_literal. skip_escaped. skip_literal.
    apply (occurs_quote_free _ [32; 84; 79; 82; 69; 65; 68; 61] [121; 101; 115; 34]);
      [reflexivity|].
    unfold noquote in *. rewrite forallb_app, H4. reflexivity.
Qed.

(** ** Rows of the [DictReader] *)

Lemma foldl_insert_lookup_ne (key : str) (keys : list str) (d : gmap str pyval) :
  ~ In key keys ->
  foldl (fun d k => <[k := PyNone]> d) d keys !! key = d !! key.
Proof.
  revert d. induction keys as [|k keys IH]; intros d Hnot; cbn [foldl]; [reflexivity|].
  rewrite IH by (intros Hin; apply Hnot; right; exact Hin).
  apply lookup_insert_ne. intros ->. apply Hnot. left; reflexivity.
Qed.

Lemma foldl_zip_lookup_ne (key : str) (kvs : list (str * str)) (d : gmap str pyval) :
  ~ In key (map fst kvs) ->
  foldl (fun d kv => <[kv.1 := PyStr kv.2]> d) d kvs !! key = d !! key.
Proof.
  revert d. induction kvs as [|kv kvs IH]; intros d Hnot; cbn [foldl]; [reflexivity|].
  rewrite IH by (intros Hin; apply Hnot; right; exact Hin).
  apply lookup_insert_ne. intros Heq. apply Hnot. left. exact Heq.
Qed.

Lemma in_fst_zip {A B} (l : list A) (k : list B) a :
  In a (map fst (zip l k)) -> In a l.
Proof.
  revert k. induction l as [|x l IH]; intros [|y k]; simpl; try tauto.
  intros [->|Hin]; [left; reflexivity|right; exact (IH k Hin)].
Qed.

Lemma in_drop {A} n (l : list A) a : In a (drop n l) -> In a l.
Proof.
  revert l. induction n as [|n IH]; intros [|x l]; simpl; try tauto.
  intros Hin. right. exact (IH l Hin).
Qed.

Lemma make_row_lookup_not_in_header fieldnames rec key :
  ~ In key fieldnames -> cols (make_row fieldnames rec) !! key = None.
Proof.
  intros Hnot.
  assert (Hzip : dict_zip fieldnames rec !! key = None).
  { unfold dict_zip. rewrite foldl_zip_lookup_ne; [apply lookup_empty|].
    intros Hin. apply Hnot. exact (in_fst_zip _ _ _ Hin). }
  unfold make_row. cbv zeta.
  destruct (length fieldnames <? length rec)%nat; [exact Hzip|].
  destruct (length rec <? length fieldnames)%nat; [|exact Hzip].
  cbn [cols]. rewrite foldl_insert_lookup_ne; [exact Hzip|].
  intros Hin. apply Hnot. exact (in_drop _ _ _ Hin).
Qed.

Lemma file_rows_of_header content fieldnames r :
  header_of content = Some fieldnames ->
  In r (file_rows content) ->
  exists rec, r = make_row fieldnames rec.
Proof.
  unfold header_of, file_rows, DictReader.
  destruct (csv_reader (splitlines (strip_bom content))) as [recs e].
  destruct recs as [|h data]; cbn [fst head]; [discriminate|].
  intros [= ->] Hin. apply list_elem_of_In, list_elem_of_fmap in Hin as (rec & -> & _).
  exists rec. reflexivity.
Qed.

(** ** Extraction *)

Section Properties.

Context `{UnicodeData}.

Lemma advance_nil st : advance st [] [] = st.
Proof.
  destruct st; unfold advance; simpl.
  rewrite !Nat.add_0_r, !app_nil_r. reflexivity.
Qed.

Lemma entities_of_app a b : entities_of (a ++ b) = entities_of a ++ entities_of b.
Proof. apply omap_app. Qed.

Lemma skips_of_app a b : skips_of (a ++ b) = (skips_of a + skips_of b)%nat.
Proof. unfold skips_of. rewrite List.filter_app, length_app. reflexivity. Qed.

Lemma advance_advance st hs1 evs1 hs2 evs2 :
  advance (advance st hs1 evs1) hs2 evs2 = advance st (hs1 ++ hs2) (evs1 ++ evs2).
Proof.
  unfold advance; simpl.
  rewrite entities_of_app, skips_of_app, length_app, !app_assoc.
  f_equal; lia.
Qed.

Lemma entities_of_cons r rows :
  entities_of (r :: rows)
  = match process_row r with
    | Row_entity b => b :: entities_of rows
    | _ => entities_of rows
    end.
Proof.
  unfold entities_of; simpl. unfold entity_of at 1.
  destruct (process_row r); reflexivity.
Qed.

Lemma skips_of_cons r rows :
  skips_of (r :: rows)
  = match process_row r with
    | Row_skipped => S (skips_of rows)
    | _ => skips_of rows
    end.
Proof.
  unfold skips_of; simpl. unfold is_skipped at 1.
  destruct (process_row r); reflexivity.
Qed.

Lemma for_rows_spec rows st :
  for_rows rows st = (advance st (handled rows) [], first_raise rows).
Proof.
  revert st. induction rows as [|r rows IH]; intros st;
    cbn [for_rows handled first_raise].
  - rewrite advance_nil. reflexivity.
  - destruct (process_row r) as [|b|e] eqn:Hr.
    + rewrite IH. f_equal. unfold advance.
      rewrite entities_of_cons, skips_of_cons, Hr.
      destruct st; unfold skip_row; simpl. f_equal; lia.
    + rewrite IH. f_equal. unfold advance.
      rewrite entities_of_cons, skips_of_cons, Hr.
      destruct st; unfold append_bookmark; simpl.
      rewrite <- !app_assoc. f_equal; lia.
    + rewrite advance_nil. reflexivity.
Qed.

Lemma handled_counts rows :
  (length (entities_of (handled rows)) + skips_of (handled rows))%nat
  = length (handled rows).
Proof.
  induction rows as [|r rows IH]; cbn [handled]; [reflexivity|].
  destruct (process_row r) as [|b|e] eqn:Hr; [| |reflexivity];
    rewrite entities_of_cons, skips_of_cons, Hr; simpl; lia.
Qed.

Lemma handled_all rows : first_raise rows = None -> handled rows = rows.
Proof.
  induction rows as [|r rows IH]; cbn [handled first_raise]; [reflexivity|].
  destruct (process_row r); intros Hn; [| |discriminate]; rewrite IH; auto.
Qed.

Lemma handled_prefix rows : exists post, rows = handled rows ++ post.
Proof.
  induction rows as [|r rows [post IH]]; cbn [handled]; [exists []; reflexivity|].
  destruct (process_row r); [| |exists (r :: rows); reflexivity];
    exists post; simpl; f_equal; exact IH.
Qed.

Lemma handled_not_raised rows r :
  In r (handled rows) ->
  process_row r = Row_skipped \/ exists b, process_row r = Row_entity b.
Proof.
  induction rows as [|r' rows IH]; cbn [handled]; [intros []|].
  destruct (process_row r') as [|b|e] eqn:Hr; [| |intros []];
    (intros [<-|Hin]; [|exact (IH Hin)]); eauto.
Qed.

Lemma in_entities_of rows b :
  In b (entities_of rows) <-> exists r, In r rows /\ process_row r = Row_entity b.
Proof.
  induction rows as [|r rows IH]; [simpl; split; [intros []|intros (? & [] & _)]|].
  rewrite entities_of_cons. split.
  - destruct (process_row r) as [|b'|e] eqn:Hr.
    + intros Hin. apply IH in Hin as (r0 & Hin & H0). exists r0; simpl; auto.
    + intros [<-|Hin]; [exists r; simpl; auto|].
      apply IH in Hin as (r0 & Hin & H0). exists r0; simpl; auto.
    + intros Hin. apply IH in Hin as (r0 & Hin & H0). exists r0; simpl; auto.
  - intros (r0 & [<-|Hin] & H0).
    + rewrite H0. left; reflexivity.
    + assert (In b (entities_of rows)) by (apply IH; eauto).
      destruct (process_row r); simpl; auto.
Qed.

Lemma process_file_spec w st p :
  process_file w st p = advance st (handled_rows w p) (file_events w p).
Proof.
  unfold process_file, handled_rows, data_rows, file_events, except_clauses.
  destruct (read_file w p) as [e|content]; cbn [rows_of_read error_of_read handled].
  - destruct st; unfold advance, emit; simpl.
    rewrite !Nat.add_0_r, app_nil_r, <- app_assoc. reflexivity.
  - unfold process_content, file_error, file_rows.
    destruct (DictReader (splitlines (strip_bom content))) as [rows e_csv].
    rewrite for_rows_spec. cbn [fst snd].
    destruct (first_raise rows) as [e|]; [|destruct e_csv as [e|]];
      destruct st; unfold advance, emit; simpl;
      rewrite ?app_nil_r, <- ?app_assoc; reflexivity.
Qed.

Lemma foldl_process_file w ps st :
  foldl (process_file w) st ps
  = advance st (flat_map (handled_rows w) ps) (flat_map (file_events w) ps).
Proof.
  revert st. induction ps as [|p ps IH]; intros st; cbn [foldl flat_map].
  - rewrite advance_nil. reflexivity.
  - rewrite IH, process_file_spec, advance_advance. reflexivity.
Qed.

Lemma extract_spec w ps :
  extract w ps
  = {| processed_count := length (entities_of (flat_map (handled_rows w) ps));
       skipped_archived_count := skips_of (flat_map (handled_rows w) ps);
       bookmarks_data := entities_of (flat_map (handled_rows w) ps);
       console := flat_map (file_events w) ps |}.
Proof. unfold extract. rewrite foldl_process_file. reflexivity. Qed.

Lemma counts_sum rows :
  (forall r, In r rows ->
             process_row r = Row_skipped \/ exists b, process_row r = Row_entity b) ->
  (length (entities_of rows) + skips_of rows)%nat = length rows.
Proof.
  induction rows as [|r rows IH]; intros Hall; [reflexivity|].
  rewrite entities_of_cons, skips_of_cons.
  specialize (IH (fun r0 Hin => Hall r0 (or_intror Hin))).
  destruct (Hall r (or_introl eq_refl)) as [->|[b ->]]; simpl; lia.
Qed.

Lemma convert_returned w ps out :
  let o := _convert_data_to_html_bookmarks w ps out in
  let st := extract w ps in
  html_output o = render BOOKMARK_TEMPLATE_CONTENT (bookmarks_data st)
  /\ match write_file w out (html_output o) with
     | Some e =>
         returned o = (0%nat, skipped_archived_count st)
         /\ events o = console st ++ [Write_file out (html_output o); Error_writing out e]
     | None =>
         returned o = (processed_count st, skipped_archived_count st)
         /\ events o = console st ++ [Write_file out (html_output o)]
     end.
Proof.
  unfold _convert_data_to_html_bookmarks. cbv zeta.
  destruct (write_file w out
              (render BOOKMARK_TEMPLATE_CONTENT (bookmarks_data (extract w ps))))
    as [e|] eqn:Hw; cbn [html_output returned events]; rewrite Hw;
    (split; [reflexivity|split; [reflexivity|]]);
    unfold emit; simpl; rewrite <- ?app_assoc; reflexivity.
Qed.

Lemma flat_map_ext_in {A B} (f g : A -> list B) l :
  (forall a, In a l -> f a = g a) -> flat_map f l = flat_map g l.
Proof.
  induction l as [|a l IH]; intros Hfg; simpl; [reflexivity|].
  rewrite (Hfg a (or_introl eq_refl)), IH; [reflexivity|].
  intros a0 Hin. apply Hfg. right. exact Hin.
Qed.

Lemma flat_map_map {A B C} (f : B -> list C) (g : A -> B) l :
  flat_map f (map g l) = flat_map (fun a => f (g a)) l.
Proof. induction l as [|a l IH]; simpl; [reflexivity|]. rewrite IH. reflexivity. Qed.

Lemma file_error_none content :
  file_error content = None -> first_raise (file_rows content) = None.
Proof. unfold file_error. destruct (first_raise _); [discriminate|reflexivity]. Qed.

(** ** The claims *)

(** C1 (amended): when the write of the output succeeds and no readable
    input file raises while it is processed, the processed count plus the
    skipped-archived count returned is the number of data rows of the
    readable files; each data row is either skipped or gives exactly one
    entity, the processed count is the number of entities and the skipped
    count the number of skipped rows. *)
Theorem counts_cover_data_rows w ps out :
  write_file w out (html_output (_convert_data_to_html_bookmarks w ps out)) = None ->
  (forall p content,
      In p ps -> read_file w p = inr content -> file_error content = None) ->
  let o := _convert_data_to_html_bookmarks w ps out in
  let rows := flat_map (data_rows w) ps in
  (fst (returned o) + snd (returned o))%nat = length rows
  /\ fst (returned o) = length (entities_of rows)
  /\ snd (returned o) = skips_of rows
  /\ bookmarks_data (extract w ps) = entities_of rows
  /\ (forall r, In r rows ->
                process_row r = Row_skipped \/ exists b, process_row r = Row_entity b).
Proof.
  intros Hw Hclean o rows.
  assert (Hrows : flat_map (handled_rows w) ps = rows).
  { apply flat_map_ext_in. intros p Hp. unfold handled_rows, data_rows.
    destruct (read_file w p) as [e|content] eqn:Hr; [reflexivity|].
    apply handled_all, file_error_none, (Hclean p content Hp Hr). }
  assert (Hall : forall r, In r rows ->
             process_row r = Row_skipped \/ exists b, process_row r = Row_entity b).
  { intros r Hin. rewrite <- Hrows in Hin.
    apply in_flat_map in Hin as (p & _ & Hin).
    exact (handled_not_raised _ _ Hin). }
  destruct (convert_returned w ps out) as [_ Hret].
  fold o in Hret, Hw. rewrite Hw in Hret. destruct Hret as [Hret _].
  rewrite Hret, extract_spec, Hrows. cbn [fst snd processed_count
    skipped_archived_count bookmarks_data].
  repeat split; auto using counts_sum.
Qed.

(** The outcome of the loop body by the status the row's dict gives: skipped
    exactly when the status, stripped and lowered, is the literal archive; an
    entity for any other status text. *)
Theorem archive_status_is_skipped (r : row) :
  (process_row r = Row_skipped <->
   exists s, dict_get r (lit "status") (PyStr []) = PyStr s
             /\ lower (strip s) = lit "archive")
  /\ (forall s, dict_get r (lit "status") (PyStr []) = PyStr s ->
                lower (strip s) <> lit "archive" ->
                exists b, process_row r = Row_entity b)
  /\ (forall s, In s [lit "Archive"; lit " archive "; lit "ARCHIVE"] ->
                dict_get r (lit "status") (PyStr []) = PyStr s ->
                process_row r = Row_skipped).
Proof.
  assert (Hskip : forall s, dict_get r (lit "status") (PyStr []) = PyStr s ->
                            lower (strip s) = lit "archive" ->
                            process_row r = Row_skipped).
  { intros s Hs Ha. unfold process_row. rewrite Hs. cbv zeta. rewrite Ha.
    reflexivity. }
  split; [split|split].
  - unfold process_row.
    destruct (dict_get r (lit "status") (PyStr [])) as [|s]; [discriminate|].
    cbv zeta. unfold str_eqb. case_bool_decide as Ha; [|discriminate].
    intros _. exists s. auto.
  - intros (s & Hs & Ha). exact (Hskip s Hs Ha).
  - intros s Hs Hne. unfold process_row. rewrite Hs. cbv zeta.
    unfold str_eqb. case_bool_decide; [contradiction|]. eauto.
  - intros s Hin Hs. apply (Hskip s Hs).
    destruct Hin as [<-|[<-|[<-|[]]]]; vm_compute; reflexivity.
Qed.

(** C5 (amended): when a row of a readable file raises, or the reader
    does, the error is written to the console and the loop goes on with
    the next file; the rows of the file handled before the failure are
    kept: their entities and counter increments stay, and nothing of the
    later rows is added. *)
Theorem failing_file_keeps_earlier_rows w st p content e :
  read_file w p = inr content ->
  file_error content = Some e ->
  let st' := process_file w st p in
  let kept := handled (file_rows content) in
  console st' = console st ++ [Echo_processing p; error_message p e]
  /\ bookmarks_data st' = bookmarks_data st ++ entities_of kept
  /\ processed_count st' = (processed_count st + length (entities_of kept))%nat
  /\ skipped_archived_count st' = (skipped_archived_count st + skips_of kept)%nat
  /\ (length (entities_of kept) + skips_of kept)%nat = length kept
  /\ (exists post, file_rows content = kept ++ post)
  /\ (forall rest, foldl (process_file w) st (p :: rest)
                   = foldl (process_file w) st' rest).
Proof.
  intros Hr He st' kept. subst st'. rewrite process_file_spec.
  unfold handled_rows, data_rows, file_events. rewrite Hr.
  cbn [rows_of_read error_of_read]. rewrite He. fold kept.
  cbn [advance console bookmarks_data processed_count skipped_archived_count].
  split; [reflexivity|]. split; [reflexivity|]. split; [reflexivity|].
  split; [reflexivity|]. split; [apply handled_counts|].
  split; [apply handled_prefix|]. intros rest. cbn [foldl].
  rewrite process_file_spec. unfold handled_rows, data_rows, file_events.
  rewrite Hr. cbn [rows_of_read error_of_read]. rewrite He. reflexivity.
Qed.

(** C6 (amended): when the output cannot be written, the write error is
    the last line of the console, the document was rendered, and the value
    returned is 0 with the skipped-archived count of the extraction. *)
Theorem write_failure_returns_zero_processed w ps out e :
  write_file w out (html_output (_convert_data_to_html_bookmarks w ps out)) = Some e ->
  let o := _convert_data_to_html_bookmarks w ps out in
  events o = console (extract w ps)
             ++ [Write_file out (html_output o); Error_writing out e]
  /\ html_output o = render BOOKMARK_TEMPLATE_CONTENT (bookmarks_data (extract w ps))
  /\ returned o = (0%nat, skipped_archived_count (extract w ps)).
Proof.
  intros Hw o. destruct (convert_returned w ps out) as [Hhtml Hret].
  fold o in Hret, Hw, Hhtml. rewrite Hw in Hret. destruct Hret as [Hret Hev].
  auto.
Qed.

(** The entity of a row takes [url], [title], [time_added] and [tags] from
    the row's dict with the empty string for a key the dict does not have,
    and a name that is not in the header is a key no row has; so a file
    whose header has no tags column gives entities with empty tags. *)
Theorem entity_copies_fields_with_empty_default :
  (forall r b, process_row r = Row_entity b ->
               url b = dict_get r (lit "url") (PyStr [])
               /\ title b = dict_get r (lit "title") (PyStr [])
               /\ add_date b = dict_get r (lit "time_added") (PyStr [])
               /\ tags b = dict_get r (lit "tags") (PyStr [])
               /\ toread b = true)
  /\ (forall r key, cols r !! key = None -> dict_get r key (PyStr []) = PyStr [])
  /\ (forall r key v, cols r !! key = Some v -> dict_get r key (PyStr []) = v)
  /\ (forall fieldnames rec key,
         ~ In key fieldnames -> cols (make_row fieldnames rec) !! key = None)
  /\ (forall content fieldnames b,
         header_of content = Some fieldnames ->
         ~ In (lit "tags") fieldnames ->
         In b (entities_of (file_rows content)) ->
         tags b = PyStr [])
  /\ (forall r s,
         cols r !! lit "tags" = None ->
         dict_get r (lit "status") (PyStr []) = PyStr s ->
         lower (strip s) <> lit "archive" ->
         exists b, process_row r = Row_entity b /\ tags b = PyStr []).
Proof.
  assert (Hcopy : forall r b, process_row r = Row_entity b ->
               url b = dict_get r (lit "url") (PyStr [])
               /\ title b = dict_get r (lit "title") (PyStr [])
               /\ add_date b = dict_get r (lit "time_added") (PyStr [])
               /\ tags b = dict_get r (lit "tags") (PyStr [])
               /\ toread b = true).
  { intros r b. unfold process_row.
    destruct (dict_get r (lit "status") (PyStr [])) as [|s]; [discriminate|].
    cbv zeta. destruct (str_eqb _ _); [discriminate|].
    intros [= <-]. repeat split. }
  assert (Hnone : forall r key, cols r !! key = None ->
                                dict_get r key (PyStr []) = PyStr []).
  { intros r key Hk. unfold dict_get. rewrite Hk. reflexivity. }
  split; [exact Hcopy|]. split; [exact Hnone|].
  split; [intros r key v Hk; unfold dict_get; rewrite Hk; reflexivity|].
  split; [exact make_row_lookup_not_in_header|].
  split.
  - intros content fieldnames b Hh Hnot Hin.
    apply in_entities_of in Hin as (r & Hin & Hr).
    destruct (file_rows_of_header _ _ _ Hh Hin) as (rec & ->).
    destruct (Hcopy _ _ Hr) as (_ & _ & _ & -> & _).
    apply Hnone, make_row_lookup_not_in_header, Hnot.
  - intros r s Hk Hs Hne. unfold process_row. rewrite Hs. cbv zeta.
    unfold str_eqb. case_bool_decide; [contradiction|].
    eexists; split; [reflexivity|]. cbn [tags]. exact (Hnone _ _ Hk).
Qed.


(** C9 (amended): the document and the counts of the extraction depend only
    on the ordered list of what reading the input paths gives: two runs that
    read the same contents in the same order render the same document and
    extract the same counts; they return the same skipped count, and the
    same pair when their writes both succeed or both fail (a run whose write
    fails returns 0 as its processed count). *)
Theorem conversion_is_deterministic w1 w2 ps1 ps2 out1 out2 :
  map (read_file w1) ps1 = map (read_file w2) ps2 ->
  let o1 := _convert_data_to_html_bookmarks w1 ps1 out1 in
  let o2 := _convert_data_to_html_bookmarks w2 ps2 out2 in
  html_output o1 = html_output o2
  /\ bookmarks_data (extract w1 ps1) = bookmarks_data (extract w2 ps2)
  /\ processed_count (extract w1 ps1) = processed_count (extract w2 ps2)
  /\ skipped_archived_count (extract w1 ps1) = skipped_archived_count (extract w2 ps2)
  /\ snd (returned o1) = snd (returned o2)
  /\ (bool_decide (write_file w1 out1 (html_output o1) = None)
      = bool_decide (write_file w2 out2 (html_output o2) = None) ->
      returned o1 = returned o2).
Proof.
  intros Hread o1 o2.
  assert (Hrows : flat_map (handled_rows w1) ps1 = flat_map (handled_rows w2) ps2).
  { unfold handled_rows, data_rows.
    rewrite <- (flat_map_map (fun r => handled (rows_of_read r)) (read_file w1)).
    rewrite <- (flat_map_map (fun r => handled (rows_of_read r)) (read_file w2)).
    rewrite Hread. reflexivity. }
  assert (Hb : bookmarks_data (extract w1 ps1) = bookmarks_data (extract w2 ps2)
               /\ processed_count (extract w1 ps1) = processed_count (extract w2 ps2)
               /\ skipped_archived_count (extract w1 ps1)
                  = skipped_archived_count (extract w2 ps2)).
  { rewrite !extract_spec. cbn [bookmarks_data processed_count
      skipped_archived_count]. rewrite Hrows. auto. }
  destruct Hb as (Hb & Hp & Hs).
  destruct (convert_returned w1 ps1 out1) as [Hh1 Hr1].
  destruct (convert_returned w2 ps2 out2) as [Hh2 Hr2].
  fold o1 in Hh1, Hr1. fold o2 in Hh2, Hr2.
  split; [rewrite Hh1, Hh2, Hb; reflexivity|].
  split; [exact Hb|]. split; [exact Hp|]. split; [exact Hs|].
  split.
  { destruct (write_file w1 out1 (html_output o1)) as [e1|];
      destruct (write_file w2 out2 (html_output o2)) as [e2|];
      destruct Hr1 as [-> _]; destruct Hr2 as [-> _]; exact Hs. }
  intros Hw.
  destruct (write_file w1 out1 (html_output o1)) as [e1|];
    destruct (write_file w2 out2 (html_output o2)) as [e2|];
    try discriminate Hw;
    destruct Hr1 as [-> _]; destruct Hr2 as [-> _]; rewrite ?Hp, Hs; reflexivity.
Qed.

(** C10: when every input path fails to read or gives no entity, the
    template is still rendered and the write of the output still made: the
    document is the fixed preamble followed by the closing list tag. *)
Theorem empty_extraction_still_writes_document w ps out :
  (forall p, In p ps ->
             (exists e, read_file w p = inl e)
             \/ entities_of (handled_rows w p) = []) ->
  let o := _convert_data_to_html_bookmarks w ps out in
  bookmarks_data (extract w ps) = []
  /\ html_output o = preamble ++ nl ++ lit "</DL><p>"
  /\ starts_with (lit "<!DOCTYPE NETSCAPE-Bookmark-file-1>") (html_output o) = true
  /\ In (Write_file out (preamble ++ nl ++ lit "</DL><p>")) (events o).
Proof.
  intros Hempty o.
  assert (Hnil : bookmarks_data (extract w ps) = []).
  { rewrite extract_spec. cbn [bookmarks_data].
    induction ps as [|p ps IH]; [reflexivity|].
    cbn [flat_map]. rewrite entities_of_app.
    rewrite IH by (intros p0 Hin; apply Hempty; right; exact Hin).
    rewrite app_nil_r.
    destruct (Hempty p (or_introl eq_refl)) as [[e He]|Hp]; [|exact Hp].
    unfold handled_rows, data_rows. rewrite He. reflexivity. }
  destruct (convert_returned w ps out) as [Hhtml Hret]. fold o in Hhtml, Hret.
  assert (Hdoc : html_output o = preamble ++ nl ++ lit "</DL><p>").
  { rewrite Hhtml, Hnil, render_document. reflexivity. }
  split; [exact Hnil|]. split; [exact Hdoc|].
  split; [rewrite Hdoc; vm_compute; reflexivity|].
  rewrite <- Hdoc.
  destruct (write_file w out (html_output o)); destruct Hret as [_ ->];
    apply in_or_app; right; left; reflexivity.
Qed.

(** C4: every entity of the run has its to-read flag set; the line of an
    entity contains the to-read attribute exactly when the flag is set, so
    every line of the document has it; and every entity comes from a data
    row of an input file whose status is not archive. *)
Theorem emitted_entities_are_marked_toread w ps out :
  let o := _convert_data_to_html_bookmarks w ps out in
  let bs := bookmarks_data (extract w ps) in
  Forall (fun b => toread b = true) bs
  /\ (forall b, render_item item_template b = anchor_line b)
  /\ (forall b, (exists pre post, anchor_line b = pre ++ TOREAD_attr ++ post)
                <-> toread b = true)
  /\ html_output o = preamble ++ flat_map anchor_line bs ++ closing
  /\ Forall (fun b => exists pre post, anchor_line b = pre ++ TOREAD_attr ++ post) bs
  /\ (forall b, In b bs ->
        exists p r s,
          In p ps /\ In r (data_rows w p) /\ process_row r = Row_entity b
          /\ dict_get r (lit "status") (PyStr []) = PyStr s
          /\ lower (strip s) <> lit "archive").
Proof.
  intros o bs.
  assert (Hsrc : forall b, In b bs ->
            exists p r, In p ps /\ In r (data_rows w p)
                        /\ process_row r = Row_entity b).
  { intros b Hin. subst bs. rewrite extract_spec in Hin. cbn [bookmarks_data] in Hin.
    apply in_entities_of in Hin as (r & Hin & Hr).
    apply in_flat_map in Hin as (p & Hp & Hin).
    exists p, r. repeat split; [exact Hp| |exact Hr].
    unfold handled_rows in Hin. destruct (handled_prefix (data_rows w p)) as [post ->].
    apply in_or_app. left. exact Hin. }
  assert (Hflag : forall r b, process_row r = Row_entity b ->
            toread b = true
            /\ exists s, dict_get r (lit "status") (PyStr []) = PyStr s
                         /\ lower (strip s) <> lit "archive").
  { intros r b. unfold process_row.
    destruct (dict_get r (lit "status") (PyStr [])) as [|s]; [discriminate|].
    cbv zeta. unfold str_eqb. case_bool_decide as Ha; [discriminate|].
    intros [= <-]. split; [reflexivity|]. exists s. auto. }
  assert (Hall : Forall (fun b => toread b = true) bs).
  { apply List.Forall_forall. intros b Hin.
    destruct (Hsrc b Hin) as (p & r & _ & _ & Hr). exact (proj1 (Hflag r b Hr)). }
  assert (Hiff : forall b, (exists pre post, anchor_line b = pre ++ TOREAD_attr ++ post)
                           <-> toread b = true).
  { intros b. rewrite <- occurs_spec, toread_attr_occurs. reflexivity. }
  split; [exact Hall|]. split; [exact render_item_anchor_line|].
  split; [exact Hiff|].
  split.
  { destruct (convert_returned w ps out) as [Hhtml _]. fold o in Hhtml.
    rewrite Hhtml. apply render_document. }
  split.
  { rewrite List.Forall_forall in *. intros b Hin. apply Hiff, Hall, Hin. }
  intros b Hin. destruct (Hsrc b Hin) as (p & r & Hp & Hin' & Hr).
  destruct (Hflag r b Hr) as (_ & s & Hs & Hne).
  exists p, r, s. auto.
Qed.

End Properties.

(** * Further properties of the code *)

(** ** Rows shorter or longer than the header *)

Lemma foldl_insert_none_lookup_in (key : str) (keys : list str) (d : gmap str pyval) :
  In key keys ->
  foldl (fun d k => <[k := PyNone]> d) d keys !! key = Some PyNone.
Proof.
  revert d. induction keys as [|k keys IH]; intros d; [intros []|].
  cbn [foldl]. destruct (decide (key ∈ keys)) as [Hin|Hnot];
    rewrite list_elem_of_In in *.
  - intros _. exact (IH _ Hin).
  - intros [->|Hin]; [|contradiction].
    rewrite foldl_insert_lookup_ne by exact Hnot. apply lookup_insert_eq.
Qed.

Lemma foldl_zip_values (kvs : list (str * str)) (d : gmap str pyval) key v :
  (forall k v, d !! k = Some v -> exists s, v = PyStr s) ->
  foldl (fun d kv => <[kv.1 := PyStr kv.2]> d) d kvs !! key = Some v ->
  exists s, v = PyStr s.
Proof.
  revert d. induction kvs as [|kv kvs IH]; intros d Hd; cbn [foldl]; [apply Hd|].
  apply IH. intros k v0. rewrite lookup_insert.
  case_decide; [intros [= <-]; eauto|apply Hd].
Qed.

Lemma dict_zip_values fieldnames rec key v :
  dict_zip fieldnames rec !! key = Some v -> exists s, v = PyStr s.
Proof.
  unfold dict_zip. apply foldl_zip_values. intros k v0. rewrite lookup_empty.
  discriminate.
Qed.

Lemma drop_all {A} n (l : list A) : (length l <= n)%nat -> drop n l = [].
Proof.
  revert n. induction l as [|x l IH]; intros [|n]; simpl; try reflexivity; try lia.
  intros Hle. apply IH. lia.
Qed.

(** A name of the header is [None] in a row exactly when the record ends
    before the name's column. *)
Lemma make_row_lookup_none fieldnames rec key :
  cols (make_row fieldnames rec) !! key = Some PyNone
  <-> In key (drop (length rec) fieldnames).
Proof.
  unfold make_row. cbv zeta.
  destruct (length fieldnames <? length rec)%nat eqn:Hlt.
  - apply Nat.ltb_lt in Hlt. cbn [cols].
    rewrite (drop_all (length rec) fieldnames) by lia. split; [|intros []].
    intros Hz. apply dict_zip_values in Hz as [s Hs]. discriminate.
  - destruct (length rec <? length fieldnames)%nat eqn:Hgt; cbn [cols].
    + split.
      * intros Hl. destruct (decide (key ∈ drop (length rec) fieldnames))
          as [Hin|Hnot]; rewrite list_elem_of_In in *; [exact Hin|].
        rewrite foldl_insert_lookup_ne in Hl by exact Hnot.
        apply dict_zip_values in Hl as [s Hs]. discriminate.
      * apply foldl_insert_none_lookup_in.
    + apply Nat.ltb_ge in Hlt, Hgt.
      rewrite (drop_all (length rec) fieldnames) by lia. split; [|intros []].
      intros Hz. apply dict_zip_values in Hz as [s Hs]. discriminate.
Qed.

Lemma zip_take_l {A B} (l : list A) (k : list B) :
  zip l k = zip l (take (length l) k).
Proof.
  revert k. induction l as [|x l IH]; intros [|y k]; simpl; try reflexivity.
  rewrite <- IH. reflexivity.
Qed.

(** ** Escaping once and twice *)

Lemma escape_char_plain c :
  (c =? 38) || special c = false -> escape_char c = [c].
Proof.
  unfold special, escape_char. rewrite !orb_false_iff.
  intros (-> & ((-> & ->) & ->) & ->). reflexivity.
Qed.

Lemma escape_char_special c :
  (c =? 38) || special c = true ->
  (2 <= length (escape_char c))%nat /\ In 38 (escape_char c).
Proof.
  unfold special, escape_char.
  destruct (N.eqb_spec c 38); [intros _; vm_compute; auto with arith|].
  destruct (N.eqb_spec c 62); [intros _; vm_compute; auto with arith|].
  destruct (N.eqb_spec c 60); [intros _; vm_compute; auto with arith|].
  destruct (N.eqb_spec c 39); [intros _; vm_compute; auto with arith|].
  destruct (N.eqb_spec c 34); [intros _; vm_compute; auto with arith|].
  discriminate.
Qed.

Lemma length_escape_char c : (1 <= length (escape_char c))%nat.
Proof.
  destruct ((c =? 38) || special c) eqn:Hc.
  - destruct (escape_char_special c Hc). lia.
  - rewrite (escape_char_plain c Hc). simpl. lia.
Qed.

Lemma length_escape s : (length s <= length (escape s))%nat.
Proof.
  rewrite escape_flat_map. induction s as [|c s IH]; [reflexivity|].
  cbn [flat_map length]. rewrite length_app.
  pose proof (length_escape_char c). lia.
Qed.

Lemma escape_plain s : plain_text s = true -> escape s = s.
Proof.
  rewrite escape_flat_map. unfold plain_text.
  induction s as [|c s IH]; [reflexivity|]. cbn [forallb flat_map].
  rewrite andb_true_iff, negb_true_iff. intros [Hc Hs].
  rewrite (escape_char_plain c Hc), (IH Hs). reflexivity.
Qed.

Lemma escape_same_length s :
  length (escape s) = length s -> plain_text s = true.
Proof.
  unfold plain_text. induction s as [|c s IH]; [reflexivity|].
  intros Hlen. cbn [forallb].
  change (c :: s) with ([c] ++ s) in Hlen. rewrite escape_app, length_app in Hlen.
  pose proof (length_escape s) as Hs.
  assert (Hc1 : escape [c] = escape_char c)
    by (rewrite escape_flat_map; cbn [flat_map]; apply app_nil_r).
  rewrite Hc1 in Hlen. cbn [app length] in Hlen.
  destruct ((c =? 38) || special c) eqn:Hc.
  - destruct (escape_char_special c Hc). lia.
  - rewrite (escape_char_plain c Hc) in Hlen. cbn [length] in Hlen.
    cbn [negb andb]. apply IH. lia.
Qed.

Lemma escape_not_plain s : plain_text s = false -> In 38 (escape s).
Proof.
  rewrite escape_flat_map. unfold plain_text.
  induction s as [|c s IH]; [discriminate|]. cbn [forallb flat_map].
  rewrite andb_false_iff, negb_false_iff. intros [Hc|Hs]; apply in_or_app.
  - left. exact (proj2 (escape_char_special c Hc)).
  - right. exact (IH Hs).
Qed.

Lemma plain_text_no_ampersand s : plain_text s = true -> ~ In 38 s.
Proof.
  unfold plain_text. rewrite forallb_forall. intros Hs Hin.
  specialize (Hs 38 Hin). discriminate.
Qed.

(** X7: a text passes through [escape] unchanged exactly when it has none
    of the five characters; escaping is not idempotent: escaping an escaped
    text changes it again unless the text had none of them; and escaping
    never shortens. *)
Theorem escape_fixes_only_plain_text s :
  (escape s = s <-> plain_text s = true)
  /\ (escape (escape s) = escape s <-> plain_text s = true)
  /\ (length s <= length (escape s))%nat.
Proof.
  assert (Hfix : forall t, escape t = t <-> plain_text t = true).
  { intros t. split; [|apply escape_plain].
    intros Ht. apply escape_same_length. rewrite Ht. reflexivity. }
  split; [apply Hfix|]. split; [|apply length_escape].
  rewrite Hfix. split.
  - intros Hp. destruct (plain_text s) eqn:Hs; [reflexivity|].
    exfalso. exact (plain_text_no_ampersand _ Hp (escape_not_plain s Hs)).
  - intros Hs. rewrite (escape_plain s Hs). exact Hs.
Qed.

(** ** Markup characters of the document *)

Lemma count_app c s t : count c (s ++ t) = (count c s + count c t)%nat.
Proof. unfold count. rewrite List.filter_app, length_app. reflexivity. Qed.

Lemma count_escape c s : special c = true -> count c (escape s) = 0%nat.
Proof.
  intros Hc. pose proof (escape_no_special s) as Hs. unfold count.
  induction (escape s) as [|x l IH]; [reflexivity|].
  cbn [forallb] in Hs. apply andb_true_iff in Hs as [Hx Hl].
  cbn [List.filter]. destruct (N.eqb_spec c x) as [<-|_]; [|exact (IH Hl)].
  rewrite Hc in Hx. discriminate.
Qed.

Lemma count_anchor_line c b :
  special c = true ->
  count c (anchor_line b)
  = (count c (nl ++ lit "    <DT><A HREF=" ++ dq ++ dq ++ lit " ADD_DATE=" ++ dq ++ dq
              ++ lit " TAGS=" ++ dq ++ dq ++ lit ">" ++ lit "</A>" ++ nl)
     + if toread b then count c TOREAD_attr else 0)%nat.
Proof.
  intros Hc. unfold anchor_line. rewrite !count_app, !(count_escape c) by exact Hc.
  destruct (toread b); cbn [count List.filter length]; lia.
Qed.

Lemma count_anchor_line_markup b :
  count 60 (anchor_line b) = 3%nat
  /\ count 62 (anchor_line b) = 3%nat
  /\ count 39 (anchor_line b) = 0%nat
  /\ count 34 (anchor_line b) = if toread b then 8%nat else 6%nat.
Proof.
  rewrite !count_anchor_line by reflexivity.
  destruct (toread b); vm_compute; auto.
Qed.

Lemma count_bracket_render c bs :
  c = 60 \/ c = 62 ->
  count c (render BOOKMARK_TEMPLATE_CONTENT bs)
  = (count c (render BOOKMARK_TEMPLATE_CONTENT []) + 3 * length bs)%nat.
Proof.
  intros Hc.
  assert (Hdoc : count c (flat_map anchor_line bs) = (3 * length bs)%nat).
  { induction bs as [|b bs IH]; [reflexivity|].
    cbn [flat_map length]. rewrite count_app, IH.
    destruct (count_anchor_line_markup b) as (H60 & H62 & _).
    destruct Hc as [->| ->]; [rewrite H60|rewrite H62]; lia. }
  rewrite !render_document. cbn [flat_map].
  rewrite !count_app, Hdoc. change (count c []) with 0%nat. lia.
Qed.

(** X8: the values of the bookmarks add no markup character to the
    document: each line has three opening and three closing angle brackets,
    no apostrophe, and six double quotes, or eight with the to-read
    attribute; the whole document has those of the empty document and three
    more of each bracket for every bookmark. *)
Theorem field_values_add_no_markup bs :
  (forall b, count 60 (anchor_line b) = 3%nat
             /\ count 62 (anchor_line b) = 3%nat
             /\ count 39 (anchor_line b) = 0%nat
             /\ count 34 (anchor_line b) = if toread b then 8%nat else 6%nat)
  /\ count 60 (render BOOKMARK_TEMPLATE_CONTENT bs)
     = (count 60 (render BOOKMARK_TEMPLATE_CONTENT []) + 3 * length bs)%nat
  /\ count 62 (render BOOKMARK_TEMPLATE_CONTENT bs)
     = (count 62 (render BOOKMARK_TEMPLATE_CONTENT []) + 3 * length bs)%nat.
Proof.
  split; [exact count_anchor_line_markup|].
  split; apply count_bracket_render; auto.
Qed.

(** ** Splitting into lines *)

Lemma splitlines_from_line cur l rest :
  no_linebreak l = true ->
  splitlines_from cur (l ++ rest) = splitlines_from (rev l ++ cur) rest.
Proof.
  revert cur. induction l as [|c l IH]; intros cur; [reflexivity|].
  unfold no_linebreak. cbn [forallb]. rewrite andb_true_iff, negb_true_iff.
  intros [Hc Hl]. cbn [app splitlines_from]. rewrite Hc, (IH _ Hl).
  cbn [rev]. rewrite <- app_assoc. reflexivity.
Qed.

Lemma splitlines_from_ending eol cur rest :
  is_line_ending eol = true ->
  (eol = [13] -> head rest <> Some 10) ->
  splitlines_from cur (eol ++ rest) = rev cur :: splitlines_from [] rest.
Proof.
  destruct eol as [|c [|c' [|c'' eol]]]; try discriminate; cbn [is_line_ending].
  - intros Hc Hrest. cbn [app splitlines_from]. rewrite Hc.
    destruct rest as [|x rest]; [reflexivity|].
    destruct (N.eqb_spec c 13) as [->|_]; [|reflexivity].
    destruct (N.eqb_spec x 10) as [->|_]; [|reflexivity].
    exfalso. exact (Hrest eq_refl eq_refl).
  - rewrite andb_true_iff, !N.eqb_eq. intros [-> ->] _. reflexivity.
Qed.

Lemma head_no_linebreak l rest :
  no_linebreak l = true -> l <> [] -> head (l ++ rest) <> Some 10.
Proof.
  destruct l as [|c l]; [congruence|]. unfold no_linebreak. cbn [forallb].
  rewrite andb_true_iff, negb_true_iff. intros [Hc _] _ [= ->]. discriminate.
Qed.

Lemma head_unlines_cr lines last :
  Forall (fun l => no_linebreak l = true) lines -> no_linebreak last = true ->
  head (unlines [13] lines ++ last) <> Some 10.
Proof.
  intros Hlines Hlast. destruct lines as [|l lines]; cbn [unlines flat_map app].
  - destruct last as [|c last]; [discriminate|].
    rewrite <- (app_nil_r (c :: last)). apply head_no_linebreak; congruence.
  - inversion Hlines as [|? ? Hl _]; subst. rewrite <- !app_assoc.
    destruct l as [|c l]; [discriminate|].
    apply head_no_linebreak; congruence.
Qed.

Lemma splitlines_joined eol lines last :
  is_line_ending eol = true ->
  Forall (fun l => no_linebreak l = true) lines ->
  no_linebreak last = true ->
  splitlines (unlines eol lines ++ last)
  = lines ++ match last with [] => [] | _ => [last] end.
Proof.
  intros Heol Hlines Hlast. unfold splitlines.
  induction Hlines as [|l lines Hl Hlines IH]; cbn [unlines flat_map app].
  - rewrite <- (app_nil_r last) at 1. rewrite splitlines_from_line by exact Hlast.
    rewrite app_nil_r. cbn [splitlines_from].
    destruct last as [|c last]; [reflexivity|].
    rewrite rev_involutive. destruct (rev (c :: last)) eqn:Hrev; [|reflexivity].
    apply (f_equal (@length N)) in Hrev. rewrite length_rev in Hrev. discriminate.
  - rewrite <- !app_assoc. rewrite splitlines_from_line by exact Hl.
    rewrite app_nil_r, splitlines_from_ending, rev_involutive; [| exact Heol |].
    + f_equal. exact IH.
    + intros ->. apply head_unlines_cr; assumption.
Qed.

(** X9: splitting undoes joining: for lines without line-boundary
    characters, each followed by the same line ending (a boundary character
    or CR LF), and an optional last line without ending, [splitlines] gives
    the lines back; so the same lines joined with another line ending split
    alike, and a text that ends with its line ending has no extra empty
    line. *)
Theorem splitlines_unlines eol eol' lines last :
  is_line_ending eol = true ->
  is_line_ending eol' = true ->
  Forall (fun l => no_linebreak l = true) lines ->
  no_linebreak last = true ->
  splitlines (unlines eol lines ++ last)
  = lines ++ match last with [] => [] | _ => [last] end
  /\ splitlines (unlines eol lines ++ last) = splitlines (unlines eol' lines ++ last).
Proof.
  intros Heol Heol' Hlines Hlast.
  pose proof (splitlines_joined eol lines last Heol Hlines Hlast) as H1.
  pose proof (splitlines_joined eol' lines last Heol' Hlines Hlast) as H2.
  split; [exact H1|]. rewrite H1, H2. reflexivity.
Qed.

(** ** Reading back written records *)

Lemma parse_line_feed r s t :
  parse_line r (s ++ t)
  = match feed r s with
    | inl e => inl e
    | inr r' => parse_line r' t
    end.
Proof.
  revert r. induction s as [|c s IH]; intros r; [reflexivity|].
  cbn [app parse_line feed]. destruct (parse_process_char r (Ch c)); [reflexivity|].
  apply IH.
Qed.

Lemma feed_app r s t :
  feed r (s ++ t)
  = match feed r s with
    | inl e => inl e
    | inr r' => feed r' t
    end.
Proof.
  revert r. induction s as [|c s IH]; intros r; [reflexivity|].
  cbn [app feed]. destruct (parse_process_char r (Ch c)); [reflexivity|].
  apply IH.
Qed.

Lemma plain_char_spec c :
  plain_char c = true ->
  (c =? delimiter) = false /\ (c =? quotechar) = false /\ is_crlf c = false.
Proof.
  unfold plain_char. rewrite negb_true_iff, !orb_false_iff. tauto.
Qed.

Lemma add_char_below_limit st f n fl c :
  n < field_limit ->
  parse_add_char {| state := st; field := f; field_len := n; fields := fl |} c
  = inr {| state := st; field := c :: f; field_len := n + 1; fields := fl |}.
Proof.
  intros Hn. unfold parse_add_char. cbn [field_len state field fields].
  destruct (N.leb_spec field_limit n); [lia|reflexivity].
Qed.

Lemma feed_bare s f n fl :
  plain_field s = true ->
  n + N.of_nat (length s) <= field_limit ->
  feed {| state := IN_FIELD; field := f; field_len := n; fields := fl |} s
  = inr {| state := IN_FIELD; field := rev s ++ f;
           field_len := n + N.of_nat (length s); fields := fl |}.
Proof.
  revert f n. induction s as [|c s IH]; intros f n Hs Hn.
  - cbn [feed rev app length]. rewrite N.add_0_r. reflexivity.
  - cbn [plain_field forallb] in Hs. apply andb_true_iff in Hs as [Hc Hs].
    apply plain_char_spec in Hc as (Hd & Hq & Hnl).
    cbn [length] in Hn. rewrite Nat2N.inj_succ in Hn.
    cbn [feed]. unfold parse_process_char. cbn [state]. rewrite Hnl, Hd.
    rewrite add_char_below_limit by lia.
    rewrite (IH (c :: f) (n + 1)) by (try exact Hs; lia).
    cbn [rev length]. rewrite Nat2N.inj_succ, <- app_assoc. cbn [app].
    f_equal. f_equal. lia.
Qed.

Lemma feed_quoted_body s f n fl :
  n + N.of_nat (length s) <= field_limit ->
  feed {| state := IN_QUOTED_FIELD; field := f; field_len := n; fields := fl |}
       (double_quotes s)
  = inr {| state := IN_QUOTED_FIELD; field := rev s ++ f;
           field_len := n + N.of_nat (length s); fields := fl |}.
Proof.
  revert f n. induction s as [|c s IH]; intros f n Hn.
  - cbn [double_quotes flat_map feed rev app length]. rewrite N.add_0_r. reflexivity.
  - cbn [length] in Hn. rewrite Nat2N.inj_succ in Hn.
    unfold double_quotes. cbn [flat_map]. fold (double_quotes s).
    assert (Hnext : feed {| state := IN_QUOTED_FIELD; field := f; field_len := n;
                            fields := fl |}
                         ((if c =? quotechar then [quotechar; quotechar] else [c])
                          ++ double_quotes s)
                    = feed {| state := IN_QUOTED_FIELD; field := c :: f;
                              field_len := n + 1; fields := fl |} (double_quotes s)).
    { destruct (N.eqb_spec c quotechar) as [->|Hq].
      - cbn [app feed]. unfold parse_process_char at 1. cbn [state].
        rewrite N.eqb_refl. unfold set_state. cbn [field field_len fields].
        unfold parse_process_char at 1. cbn [state]. rewrite N.eqb_refl.
        rewrite add_char_below_limit by lia. reflexivity.
      - cbn [app feed]. unfold parse_process_char at 1. cbn [state].
        apply N.eqb_neq in Hq. rewrite Hq.
        rewrite add_char_below_limit by lia. reflexivity. }
    rewrite Hnext, (IH (c :: f) (n + 1)) by lia.
    cbn [rev length]. rewrite Nat2N.inj_succ, <- app_assoc. cbn [app].
    f_equal. f_equal. lia.
Qed.

Lemma quote_then_comma f n fl :
  feed {| state := IN_QUOTED_FIELD; field := f; field_len := n; fields := fl |}
       [quotechar; delimiter]
  = inr (between_fields START_FIELD (rev f :: fl)).
Proof. reflexivity. Qed.

Lemma quote_then_eol f n fl :
  parse_line {| state := IN_QUOTED_FIELD; field := f; field_len := n; fields := fl |}
             [quotechar]
  = inr (between_fields START_RECORD (rev f :: fl)).
Proof. reflexivity. Qed.

Lemma bare_then_comma f n fl :
  feed {| state := IN_FIELD; field := f; field_len := n; fields := fl |} [delimiter]
  = inr (between_fields START_FIELD (rev f :: fl)).
Proof. reflexivity. Qed.

Lemma bare_then_eol f n fl :
  parse_line {| state := IN_FIELD; field := f; field_len := n; fields := fl |} []
  = inr (between_fields START_RECORD (rev f :: fl)).
Proof. reflexivity. Qed.

Lemma start_quote st fl :
  st = START_RECORD \/ st = START_FIELD ->
  parse_process_char (between_fields st fl) (Ch quotechar)
  = inr {| state := IN_QUOTED_FIELD; field := []; field_len := 0; fields := fl |}.
Proof. intros [-> | ->]; reflexivity. Qed.

Lemma start_comma st fl :
  st = START_RECORD \/ st = START_FIELD ->
  parse_process_char (between_fields st fl) (Ch delimiter)
  = inr (between_fields START_FIELD ([] :: fl)).
Proof. intros [-> | ->]; reflexivity. Qed.

Lemma start_bare st fl c :
  st = START_RECORD \/ st = START_FIELD ->
  plain_char c = true ->
  parse_process_char (between_fields st fl) (Ch c)
  = inr {| state := IN_FIELD; field := [c]; field_len := 1; fields := fl |}.
Proof.
  intros Hst Hc. apply plain_char_spec in Hc as (Hd & Hq & Hnl).
  destruct Hst as [-> | ->]; unfold parse_process_char, between_fields;
    cbn [state set_state]; rewrite Hnl, Hq, Hd; reflexivity.
Qed.

Lemma writable_field_spec q f :
  writable_field (q, f) = true ->
  (q = true \/ plain_field f = true) /\ N.of_nat (length f) <= field_limit.
Proof.
  unfold writable_field. cbn [fst snd].
  rewrite andb_true_iff, orb_true_iff, N.leb_le. tauto.
Qed.

(** A written field and the delimiter after it. *)
Lemma field_then_comma st qf fl :
  st = START_RECORD \/ st = START_FIELD ->
  writable_field qf = true ->
  feed (between_fields st fl) (written qf ++ [delimiter])
  = inr (between_fields START_FIELD (qf.2 :: fl)).
Proof.
  intros Hst Hw. destruct qf as [q f]. apply writable_field_spec in Hw as [Hq Hlen].
  unfold written. cbn [fst snd]. destruct q.
  - unfold quoted. cbn [app feed]. rewrite (start_quote st fl Hst).
    rewrite <- app_assoc, feed_app, feed_quoted_body by lia.
    cbn [app]. rewrite quote_then_comma, app_nil_r, rev_involutive. reflexivity.
  - destruct Hq as [Hq|Hplain]; [discriminate|].
    destruct f as [|c f].
    + cbn [app feed]. rewrite (start_comma st fl Hst). reflexivity.
    + cbn [plain_field forallb] in Hplain. apply andb_true_iff in Hplain as [Hc Hf].
      cbn [length] in Hlen. rewrite Nat2N.inj_succ in Hlen.
      cbn [app feed]. rewrite (start_bare st fl c Hst Hc).
      rewrite feed_app, feed_bare by (try exact Hf; lia).
      rewrite bare_then_comma, rev_app_distr, rev_involutive. reflexivity.
Qed.

(** A written field and the end of the line after it. *)
Lemma field_then_eol st qf fl :
  st = START_RECORD \/ st = START_FIELD ->
  writable_field qf = true ->
  (st = START_RECORD -> written qf <> []) ->
  parse_line (between_fields st fl) (written qf)
  = inr (between_fields START_RECORD (qf.2 :: fl)).
Proof.
  intros Hst Hw Hne. destruct qf as [q f].
  apply writable_field_spec in Hw as [Hq Hlen].
  unfold written in *. cbn [fst snd] in *. destruct q.
  - unfold quoted. cbn [parse_line]. rewrite (start_quote st fl Hst).
    rewrite parse_line_feed, feed_quoted_body by lia.
    rewrite quote_then_eol, app_nil_r, rev_involutive. reflexivity.
  - destruct Hq as [Hq|Hplain]; [discriminate|].
    destruct f as [|c f].
    + destruct Hst as [-> | ->]; [exfalso; exact (Hne eq_refl eq_refl)|reflexivity].
    + cbn [plain_field forallb] in Hplain. apply andb_true_iff in Hplain as [Hc Hf].
      cbn [length] in Hlen. rewrite Nat2N.inj_succ in Hlen.
      cbn [parse_line]. rewrite (start_bare st fl c Hst Hc).
      rewrite <- (app_nil_r f) at 1.
      rewrite parse_line_feed, feed_bare by (try exact Hf; lia).
      rewrite bare_then_eol, rev_app_distr, rev_involutive. reflexivity.
Qed.

Lemma written_record_line st rec fl :
  rec <> [] ->
  st = START_RECORD \/ st = START_FIELD ->
  forallb writable_field rec = true ->
  (st = START_RECORD -> record_line rec <> []) ->
  parse_line (between_fields st fl) (record_line rec)
  = inr (between_fields START_RECORD (rev (record_fields rec) ++ fl)).
Proof.
  revert st fl. induction rec as [|qf rec IH]; intros st fl Hne Hst Hw Hline;
    [congruence|].
  cbn [forallb] in Hw. apply andb_true_iff in Hw as [Hqf Hrec].
  destruct rec as [|qf' rec].
  - unfold record_line, record_fields in *. cbn [fmap list_fmap join rev app] in *.
    exact (field_then_eol st qf fl Hst Hqf Hline).
  - unfold record_line. cbn [fmap list_fmap join].
    change (written qf ++ [delimiter] ++ join [delimiter] (written <$> qf' :: rec))
      with (written qf ++ [delimiter] ++ record_line (qf' :: rec)).
    rewrite app_assoc, parse_line_feed, (field_then_comma st qf fl Hst Hqf).
    rewrite (IH START_FIELD); [|congruence|auto|exact Hrec|discriminate].
    unfold record_fields. cbn [fmap list_fmap rev].
    rewrite <- !app_assoc. reflexivity.
Qed.

Lemma writable_record_line rec :
  writable_record rec = true -> rec <> [] -> record_line rec <> [].
Proof.
  unfold writable_record, record_line. rewrite andb_true_iff. intros [_ Hne] Hrec.
  destruct rec as [|[q f] [|qf' rec]]; [congruence| |].
  - cbn [fmap list_fmap join written fst snd].
    destruct q; [discriminate|]. destruct f; [discriminate Hne|discriminate].
  - cbn [fmap list_fmap join]. intros Happ.
    apply app_eq_nil in Happ as [_ Happ]. discriminate Happ.
Qed.

Lemma reader_iter_written_prefix recs tail :
  Forall (fun rec => writable_record rec = true) recs ->
  reader_iter parse_reset ((record_line <$> recs) ++ tail)
  = ((record_fields <$> recs) ++ (reader_iter parse_reset tail).1,
     (reader_iter parse_reset tail).2).
Proof.
  induction 1 as [|rec recs Hrec _ IH]; cbn [fmap list_fmap app].
  - destruct (reader_iter parse_reset tail). reflexivity.
  - fold (fmap (M:=list) record_line recs) (fmap (M:=list) record_fields recs).
    cbn [reader_iter].
    assert (Hline : parse_line parse_reset (record_line rec)
                    = inr (between_fields START_RECORD (rev (record_fields rec)))).
    { destruct rec as [|qf rec]; [reflexivity|].
      change parse_reset with (between_fields START_RECORD []).
      rewrite (written_record_line START_RECORD (qf :: rec) []);
        [rewrite app_nil_r; reflexivity|congruence|auto| |].
      - unfold writable_record in Hrec. apply andb_true_iff in Hrec. tauto.
      - intros _. apply writable_record_line; [exact Hrec|congruence]. }
    rewrite Hline. cbn [state_is_start between_fields state fields].
    rewrite IH, rev_involutive. reflexivity.
Qed.

Lemma csv_reader_written recs :
  Forall (fun rec => writable_record rec = true) recs ->
  csv_reader (record_line <$> recs) = (record_fields <$> recs, None).
Proof.
  intros Hrecs. unfold csv_reader.
  rewrite <- (app_nil_r (record_line <$> recs)).
  rewrite (reader_iter_written_prefix recs [] Hrecs). cbn [reader_iter].
  change (record_pending parse_reset) with false. cbn [fst snd].
  rewrite app_nil_r. reflexivity.
Qed.

(** X10: the reader gives back what was written: for records whose fields
    are written bare (when they hold no delimiter, quote, CR or LF) or
    between quotes with their quotes doubled, each field of at most 131072
    characters, one record on a line, the reader yields exactly the records,
    empty lines as empty records, and raises nothing; a delimiter or a
    quote inside a quoted field does not split or end it; and lines after
    the written ones are read as if they came first. *)
Theorem reader_reads_back_written_records recs :
  Forall (fun rec => writable_record rec = true) recs ->
  csv_reader (record_line <$> recs) = (record_fields <$> recs, None)
  /\ (forall more,
        csv_reader ((record_line <$> recs) ++ more)
        = ((record_fields <$> recs) ++ (csv_reader more).1, (csv_reader more).2)).
Proof.
  intros Hrecs. split; [exact (csv_reader_written recs Hrecs)|].
  intros more. unfold csv_reader.
  exact (reader_iter_written_prefix recs more Hrecs).
Qed.

Lemma feed_bare_over_limit s f n fl :
  plain_field s = true ->
  n <= field_limit ->
  field_limit < n + N.of_nat (length s) ->
  feed {| state := IN_FIELD; field := f; field_len := n; fields := fl |} s
  = inl CsvError_field_limit.
Proof.
  revert f n. induction s as [|c s IH]; intros f n Hs Hn Hover.
  - cbn [length] in Hover. lia.
  - cbn [plain_field forallb] in Hs. apply andb_true_iff in Hs as [Hc Hs].
    apply plain_char_spec in Hc as (Hd & Hq & Hnl).
    cbn [length] in Hover. rewrite Nat2N.inj_succ in Hover.
    cbn [feed]. unfold parse_process_char. cbn [state]. rewrite Hnl, Hd.
    destruct (N.eq_dec n field_limit) as [->|Hne].
    + reflexivity.
    + rewrite add_char_below_limit by lia. apply IH; [exact Hs|lia|lia].
Qed.

(** X11: a bare field of more than 131072 characters makes the reader
    raise its field-limit error at that line; the records of the lines
    before it have been yielded, and nothing of that line or the lines after
    it is. *)
Theorem oversized_field_raises recs s rest more :
  Forall (fun rec => writable_record rec = true) recs ->
  plain_field s = true ->
  field_limit < N.of_nat (length s) ->
  csv_reader ((record_line <$> recs) ++ (s ++ rest) :: more)
  = (record_fields <$> recs, Some CsvError_field_limit).
Proof.
  intros Hrecs Hs Hover. unfold csv_reader.
  rewrite (reader_iter_written_prefix recs _ Hrecs).
  assert (Hline : parse_line parse_reset (s ++ rest) = inl CsvError_field_limit).
  { rewrite parse_line_feed. destruct s as [|c s]; [cbn [length] in Hover; lia|].
    cbn [plain_field forallb] in Hs. apply andb_true_iff in Hs as [Hc Hs].
    cbn [length] in Hover. rewrite Nat2N.inj_succ in Hover.
    cbn [feed]. change parse_reset with (between_fields START_RECORD []).
    rewrite (start_bare START_RECORD [] c) by auto.
    rewrite feed_bare_over_limit; [reflexivity|exact Hs| |lia].
    vm_compute. discriminate. }
  cbn [reader_iter]. rewrite Hline. cbn [fst snd]. rewrite app_nil_r. reflexivity.
Qed.

(** ** A written file *)

Lemma no_linebreak_app s t :
  no_linebreak (s ++ t) = no_linebreak s && no_linebreak t.
Proof. apply forallb_app. Qed.

Lemma no_linebreak_double_quotes f :
  no_linebreak f = true -> no_linebreak (double_quotes f) = true.
Proof.
  unfold double_quotes. induction f as [|c f IH]; [reflexivity|].
  unfold no_linebreak at 1. cbn [forallb flat_map]. fold (no_linebreak f).
  rewrite andb_true_iff. intros [Hc Hf]. rewrite no_linebreak_app, (IH Hf), andb_true_r.
  destruct (c =? quotechar); cbn [no_linebreak forallb]; [reflexivity|].
  rewrite Hc. reflexivity.
Qed.

Lemma no_linebreak_written qf :
  no_linebreak qf.2 = true -> no_linebreak (written qf) = true.
Proof.
  intros Hf. unfold written. destruct qf.1; [|exact Hf].
  unfold quoted. change (quotechar :: double_quotes qf.2 ++ [quotechar])
    with ([quotechar] ++ double_quotes qf.2 ++ [quotechar]).
  rewrite !no_linebreak_app, (no_linebreak_double_quotes _ Hf). reflexivity.
Qed.

Lemma no_linebreak_record_line rec :
  Forall (fun f => no_linebreak f = true) (record_fields rec) ->
  no_linebreak (record_line rec) = true.
Proof.
  unfold record_line, record_fields.
  induction rec as [|qf rec IH]; [reflexivity|].
  cbn [fmap list_fmap]. intros Hall. inversion Hall as [|? ? Hqf Hrec]; subst.
  specialize (IH Hrec). apply no_linebreak_written in Hqf.
  destruct rec as [|qf' rec]; [exact Hqf|].
  cbn [fmap list_fmap join] in *.
  rewrite !no_linebreak_app, Hqf, IH. reflexivity.
Qed.

(** X12: a file written as a header record and data records, one on a
    line with any line ending, after an optional byte-order mark, gives the
    [DictReader] the header's fields as names and one row for each data
    record that is not an empty line, in order; the reader raises nothing. *)
Theorem written_file_rows content eol header recs :
  is_line_ending eol = true ->
  Forall (fun rec => writable_record rec = true
                     /\ Forall (fun f => no_linebreak f = true) (record_fields rec))
         (header :: recs) ->
  strip_bom content = unlines eol (record_line <$> header :: recs) ->
  header_of content = Some (record_fields header)
  /\ file_rows content
     = make_row (record_fields header)
         <$> filter (fun r => r <> []) (record_fields <$> recs)
  /\ (DictReader (splitlines (strip_bom content))).2 = None.
Proof.
  intros Heol Hall Hcontent.
  assert (Hlines : splitlines (strip_bom content) = record_line <$> header :: recs).
  { rewrite Hcontent, <- (app_nil_r (unlines eol _)).
    rewrite (splitlines_joined eol _ [] Heol); [apply app_nil_r| |reflexivity].
    apply List.Forall_forall. intros l Hin.
    apply list_elem_of_In, list_elem_of_fmap in Hin as (rec & -> & Hin).
    apply list_elem_of_In in Hin. rewrite List.Forall_forall in Hall.
    apply no_linebreak_record_line, (Hall rec Hin). }
  assert (Hread : csv_reader (record_line <$> header :: recs)
                  = (record_fields <$> header :: recs, None)).
  { apply csv_reader_written. rewrite List.Forall_forall in *.
    intros rec Hin. apply (Hall rec Hin). }
  unfold header_of, file_rows, DictReader. rewrite Hlines, Hread.
  cbn [fmap list_fmap fst snd head]. auto.
Qed.

(** X15: a line boundary inside a quoted field is lost: the text is split
    into lines before the reader sees it, so the reader joins the two parts
    of the field with nothing between them. *)
Theorem line_break_in_quoted_field_is_dropped f1 c f2 :
  islinebreak c = true ->
  no_linebreak f1 = true -> no_linebreak f2 = true ->
  N.of_nat (length (f1 ++ f2)) <= field_limit ->
  quoted (f1 ++ [c] ++ f2) = (quotechar :: double_quotes f1) ++ [c]
                             ++ double_quotes f2 ++ [quotechar]
  /\ csv_reader (splitlines (quoted (f1 ++ [c] ++ f2))) = ([[f1 ++ f2]], None).
Proof.
  intros Hc Hf1 Hf2 Hlen. rewrite length_app, Nat2N.inj_add in Hlen.
  assert (Hcq : (c =? quotechar) = false).
  { destruct (N.eqb_spec c quotechar) as [->|]; [discriminate Hc|reflexivity]. }
  assert (Hq : quoted (f1 ++ [c] ++ f2)
               = (quotechar :: double_quotes f1) ++ [c]
                 ++ double_quotes f2 ++ [quotechar]).
  { unfold quoted, double_quotes. rewrite !flat_map_app. cbn [flat_map].
    rewrite Hcq. cbn [app]. rewrite <- !app_assoc. reflexivity. }
  split; [exact Hq|].
  assert (Hsplit : splitlines (quoted (f1 ++ [c] ++ f2))
                   = [quotechar :: double_quotes f1; double_quotes f2 ++ [quotechar]]).
  { rewrite Hq.
    pose proof (splitlines_joined [c] [quotechar :: double_quotes f1]
                  (double_quotes f2 ++ [quotechar])) as Hs.
    cbn [unlines flat_map is_line_ending] in Hs. rewrite app_nil_r in Hs.
    rewrite <- app_assoc in Hs. rewrite Hs.
    - cbn [app]. destruct (double_quotes f2 ++ [quotechar]) eqn:Hd; [|reflexivity].
      apply app_eq_nil in Hd as [_ Hd]. discriminate Hd.
    - exact Hc.
    - constructor; [|constructor].
      change (quotechar :: double_quotes f1) with ([quotechar] ++ double_quotes f1).
      rewrite no_linebreak_app, (no_linebreak_double_quotes _ Hf1). reflexivity.
    - rewrite no_linebreak_app, (no_linebreak_double_quotes _ Hf2). reflexivity. }
  rewrite Hsplit. unfold csv_reader. cbn [reader_iter].
  change parse_reset with (between_fields START_RECORD []).
  cbn [parse_line]. rewrite (start_quote START_RECORD []) by auto.
  rewrite <- (app_nil_r (double_quotes f1)), parse_line_feed.
  rewrite feed_quoted_body by lia. cbn [parse_line parse_process_char state].
  cbn [state_is_start state]. rewrite parse_line_feed.
  rewrite feed_quoted_body by lia. rewrite quote_then_eol.
  cbn [state_is_start between_fields state fields reader_iter record_pending
       field_len]. cbn [rev app].
  rewrite !app_nil_r, rev_app_distr, !rev_involutive. reflexivity.
Qed.

(** ** Stripping and lowering *)

Lemma lstrip_spaces ws t : forallb isspace ws = true -> lstrip (ws ++ t) = lstrip t.
Proof.
  induction ws as [|c ws IH]; [reflexivity|]. cbn [forallb app lstrip].
  rewrite andb_true_iff. intros [-> Hws]. exact (IH Hws).
Qed.

Lemma lstrip_nonspace c t : isspace c = false -> lstrip (c :: t) = c :: t.
Proof. intros Hc. cbn [lstrip]. rewrite Hc. reflexivity. Qed.

Lemma forallb_rev {A} (f : A -> bool) l : forallb f (rev l) = forallb f l.
Proof.
  induction l as [|x l IH]; [reflexivity|]. cbn [rev forallb].
  rewrite forallb_app, IH. cbn [forallb]. rewrite andb_true_r. apply andb_comm.
Qed.

(** [strip] removes whitespace at both ends and nothing else. *)
Lemma strip_padded ws1 c1 mid cn ws2 :
  forallb isspace ws1 = true -> forallb isspace ws2 = true ->
  isspace c1 = false -> isspace cn = false ->
  strip (ws1 ++ (c1 :: mid ++ [cn]) ++ ws2) = c1 :: mid ++ [cn].
Proof.
  intros H1 H2 Hc1 Hcn. unfold strip, rstrip.
  rewrite (lstrip_spaces ws1) by exact H1.
  cbn [app]. rewrite lstrip_nonspace by exact Hc1.
  replace (rev (c1 :: (mid ++ [cn]) ++ ws2)) with (rev ws2 ++ cn :: rev mid ++ [c1]).
  - rewrite lstrip_spaces by (rewrite forallb_rev; exact H2).
    rewrite lstrip_nonspace by exact Hcn.
    cbn [rev]. rewrite rev_app_distr, rev_involutive. reflexivity.
  - cbn [rev]. rewrite !rev_app_distr. cbn [rev app].
    rewrite <- !app_assoc. reflexivity.
Qed.

Lemma ascii_lower_letter c k :
  ascii_lower c = k -> 97 <= k -> k <= 122 -> c = k \/ c + 32 = k.
Proof.
  unfold ascii_lower. destruct ((65 <=? c) && (c <=? 90)); intros <- _ _; auto.
Qed.

Lemma letter_not_space c k :
  ascii_lower c = k -> 97 <= k -> k <= 122 -> isspace c = false.
Proof.
  intros Hk Hlo Hhi.
  assert (Hc : 65 <= c /\ c <= 122)
    by (destruct (ascii_lower_letter c k Hk Hlo Hhi); lia).
  unfold isspace.
  replace (c <=? 13) with false by (symmetry; apply N.leb_gt; lia).
  replace (c <=? 32) with false by (symmetry; apply N.leb_gt; lia).
  replace (8192 <=? c) with false by (symmetry; apply N.leb_gt; lia).
  repeat match goal with
         | |- context [c =? ?b] =>
             replace (c =? b) with false by (symmetry; apply N.eqb_neq; lia)
         end.
  rewrite !andb_false_r. reflexivity.
Qed.

Lemma is_ascii_lowered s : is_ascii (ascii_lower <$> s) = true -> is_ascii s = true.
Proof.
  unfold is_ascii. induction s as [|c s IH]; [reflexivity|].
  cbn [fmap list_fmap forallb]. rewrite !andb_true_iff, !N.ltb_lt.
  intros [Hc Hs]. split; [|exact (IH Hs)].
  unfold ascii_lower in Hc. destruct ((65 <=? c) && (c <=? 90)); lia.
Qed.

Section MoreProperties.

Context `{UnicodeData}.

Lemma process_row_cols r1 r2 : cols r1 = cols r2 -> process_row r1 = process_row r2.
Proof. intros Hc. unfold process_row, dict_get. rewrite Hc. reflexivity. Qed.

Lemma process_row_raises r e :
  process_row r = Row_raised e <->
  cols r !! lit "status" = Some PyNone /\ e = AttributeError_strip.
Proof.
  unfold process_row, dict_get.
  destruct (cols r !! lit "status") as [[|s]|]; cbv zeta.
  - split; [intros [= <-]; auto|intros [_ ->]; reflexivity].
  - destruct (str_eqb _ _); split; try discriminate; intros [[=] _].
  - destruct (str_eqb _ _); split; try discriminate; intros [[=] _].
Qed.

(** X1: the extraction over two lists of paths, one after the other, is the
    extraction of the first followed by that of the second: the entities are
    appended in order, the counts add up and the console lines follow each
    other; nothing is merged or removed. *)
Theorem extract_app w ps1 ps2 :
  bookmarks_data (extract w (ps1 ++ ps2))
  = bookmarks_data (extract w ps1) ++ bookmarks_data (extract w ps2)
  /\ processed_count (extract w (ps1 ++ ps2))
     = (processed_count (extract w ps1) + processed_count (extract w ps2))%nat
  /\ skipped_archived_count (extract w (ps1 ++ ps2))
     = (skipped_archived_count (extract w ps1)
        + skipped_archived_count (extract w ps2))%nat
  /\ console (extract w (ps1 ++ ps2))
     = console (extract w ps1) ++ console (extract w ps2).
Proof.
  rewrite !extract_spec. cbn [bookmarks_data processed_count
    skipped_archived_count console].
  rewrite !flat_map_app, entities_of_app, skips_of_app, length_app. auto.
Qed.

(** X2: when the header of a file has no column named exactly status, no
    data row of the file is skipped and none raises: every data row gives
    an entity, whatever the row holds. *)
Theorem header_without_status_keeps_every_row content fieldnames :
  header_of content = Some fieldnames ->
  ~ In (lit "status") fieldnames ->
  first_raise (file_rows content) = None
  /\ handled (file_rows content) = file_rows content
  /\ skips_of (file_rows content) = 0%nat
  /\ length (entities_of (file_rows content)) = length (file_rows content).
Proof.
  intros Hh Hnot.
  assert (Hrow : forall r, In r (file_rows content) ->
                           exists b, process_row r = Row_entity b).
  { intros r Hin. destruct (file_rows_of_header _ _ _ Hh Hin) as [rec ->].
    unfold process_row, dict_get.
    rewrite (make_row_lookup_not_in_header _ _ _ Hnot). cbv zeta.
    replace (str_eqb (lower (strip [])) (lit "archive")) with false
      by (vm_compute; reflexivity).
    eauto. }
  induction (file_rows content) as [|r rows IH]; [repeat split|].
  destruct (Hrow r (or_introl eq_refl)) as [b Hb].
  destruct (IH (fun r0 Hin => Hrow r0 (or_intror Hin))) as (I1 & I2 & I3 & I4).
  cbn [first_raise handled]. rewrite entities_of_cons, skips_of_cons, Hb.
  rewrite I1, I2, I3. simpl. rewrite I4. auto.
Qed.

(** X3: a data row raises exactly when the status column lies beyond the
    end of its record (the reader then gives None for it); the exception is
    the attribute error of strip, and a record at least as long as the header
    never raises. *)
Theorem short_row_raises_iff fieldnames rec :
  (process_row (make_row fieldnames rec) = Row_raised AttributeError_strip
   <-> In (lit "status") (drop (length rec) fieldnames))
  /\ (forall e, process_row (make_row fieldnames rec) = Row_raised e ->
                e = AttributeError_strip)
  /\ ((length fieldnames <= length rec)%nat ->
      forall e, process_row (make_row fieldnames rec) <> Row_raised e).
Proof.
  split; [|split].
  - rewrite process_row_raises, make_row_lookup_none. tauto.
  - intros e He. apply process_row_raises in He. tauto.
  - intros Hle e He. apply process_row_raises in He as [He _].
    apply make_row_lookup_none in He. rewrite drop_all in He by exact Hle.
    destruct He.
Qed.

(** X4: the fields of a record beyond the header's columns change nothing:
    the row has the same named values, and the same outcome, as the record
    cut to the header's length. *)
Theorem fields_beyond_header_ignored fieldnames rec :
  cols (make_row fieldnames rec)
  = cols (make_row fieldnames (take (length fieldnames) rec))
  /\ process_row (make_row fieldnames rec)
     = process_row (make_row fieldnames (take (length fieldnames) rec)).
Proof.
  assert (Hc : cols (make_row fieldnames rec)
               = cols (make_row fieldnames (take (length fieldnames) rec))).
  { destruct (le_lt_dec (length rec) (length fieldnames)) as [Hle|Hlt].
    - rewrite take_ge by exact Hle. reflexivity.
    - unfold make_row. cbv zeta. rewrite length_take, Nat.min_l by lia.
      rewrite Nat.ltb_irrefl. apply Nat.ltb_lt in Hlt. rewrite Hlt.
      cbn [cols]. unfold dict_zip. rewrite <- zip_take_l. reflexivity. }
  split; [exact Hc|apply process_row_cols, Hc].
Qed.

(** X5: in a row that gives an entity, a column of the header that lies
    beyond the end of the record is None in the entity, not the empty
    string, and the line of an entity whose url is None has the text None as
    its address. *)
Theorem short_row_fields_are_none fieldnames rec b :
  process_row (make_row fieldnames rec) = Row_entity b ->
  (In (lit "url") (drop (length rec) fieldnames) -> url b = PyNone)
  /\ (In (lit "title") (drop (length rec) fieldnames) -> title b = PyNone)
  /\ (In (lit "time_added") (drop (length rec) fieldnames) -> add_date b = PyNone)
  /\ (In (lit "tags") (drop (length rec) fieldnames) -> tags b = PyNone)
  /\ (url b = PyNone ->
      exists pre post,
        anchor_line b = pre ++ (lit "HREF=" ++ dq ++ lit "None" ++ dq) ++ post).
Proof.
  intros Hb.
  assert (Hget : forall key, In key (drop (length rec) fieldnames) ->
                   dict_get (make_row fieldnames rec) key (PyStr []) = PyNone).
  { intros key Hin. apply make_row_lookup_none in Hin. unfold dict_get.
    rewrite Hin. reflexivity. }
  unfold process_row in Hb.
  destruct (dict_get (make_row fieldnames rec) (lit "status") (PyStr []));
    [discriminate|].
  cbv zeta in Hb. destruct (str_eqb _ _); [discriminate|].
  injection Hb as <-. cbn [url title add_date tags].
  repeat (split; [exact (Hget _)|]).
  intros Hu. unfold anchor_line. cbn [url]. rewrite Hu.
  exists (nl ++ lit "    <DT><A "). eexists.
  vm_compute (escape (py_str PyNone)).
  rewrite <- !app_assoc. reflexivity.
Qed.

(** X6: a status made of the letters of archive in any mix of upper and
    lower case, with any whitespace before and after, makes the row
    skipped. *)
Theorem padded_any_case_archive_is_skipped (r : row) ws1 s ws2 :
  forallb isspace ws1 = true ->
  forallb isspace ws2 = true ->
  ascii_lower <$> s = lit "archive" ->
  dict_get r (lit "status") (PyStr []) = PyStr (ws1 ++ s ++ ws2) ->
  process_row r = Row_skipped.
Proof.
  intros H1 H2 Hs Hget.
  assert (Hascii : is_ascii s = true).
  { apply is_ascii_lowered. rewrite Hs. reflexivity. }
  assert (Hstrip : strip (ws1 ++ s ++ ws2) = s).
  { change (lit "archive") with [97; 114; 99; 104; 105; 118; 101] in Hs.
    destruct s as [|c1 [|c2 [|c3 [|c4 [|c5 [|c6 [|c7 [|c8 s]]]]]]]];
      try discriminate Hs.
    injection Hs as Hc1 Hc2 Hc3 Hc4 Hc5 Hc6 Hc7.
    apply (strip_padded ws1 c1 [c2; c3; c4; c5; c6] c7 ws2 H1 H2).
    - apply (letter_not_space c1 97 Hc1); lia.
    - apply (letter_not_space c7 101 Hc7); lia. }
  unfold process_row. rewrite Hget. cbv zeta. rewrite Hstrip.
  unfold lower. rewrite Hascii, Hs. reflexivity.
Qed.

(** X13: when the write of the output fails, the command reports by the
    existence of the output path alone: if a file is there (left by an
    earlier run, say) it announces completion, 0 processed bookmarks and the
    path as saved, although this run wrote nothing; if none is there it
    prints the warning. *)
Theorem convert_after_write_failure w exists_after ps out e :
  write_file w out (html_output (_convert_data_to_html_bookmarks w ps out)) = Some e ->
  convert w exists_after ps out
  = Starting
    :: (Core <$> console (extract w ps))
    ++ [ Core (Write_file out (html_output (_convert_data_to_html_bookmarks w ps out)));
         Core (Error_writing out e) ]
    ++ (if exists_after out
        then [ Conversion_complete; Processed_line 0;
               Skipped_line (skipped_archived_count (extract w ps)); Saved_as out ]
        else [ Nothing_processed ]).
Proof.
  intros Hw. unfold convert.
  destruct (convert_returned w ps out) as [_ Hret]. rewrite Hw in Hret.
  destruct Hret as [Hret Hev].
  rewrite Hret, Hev, fmap_app, <- app_assoc. reflexivity.
Qed.

(** X14: when the write of the output succeeds and the output path exists
    afterwards, the command announces completion with the processed and
    skipped counts of the extraction and the path, also when no bookmark was
    processed. *)
Theorem convert_after_write_success w exists_after ps out :
  write_file w out (html_output (_convert_data_to_html_bookmarks w ps out)) = None ->
  exists_after out = true ->
  convert w exists_after ps out
  = Starting
    :: (Core <$> console (extract w ps))
    ++ [ Core (Write_file out (html_output (_convert_data_to_html_bookmarks w ps out)));
         Conversion_complete;
         Processed_line (processed_count (extract w ps));
         Skipped_line (skipped_archived_count (extract w ps));
         Saved_as out ].
Proof.
  intros Hw Hex. unfold convert.
  destruct (convert_returned w ps out) as [_ Hret]. rewrite Hw in Hret.
  destruct Hret as [Hret Hev].
  rewrite Hret, Hev, fmap_app, <- app_assoc. unfold report.
  rewrite Hex, orb_true_r. reflexivity.
Qed.

Lemma handled_at_most_data_rows w ps :
  (length (entities_of (flat_map (handled_rows w) ps))
   + skips_of (flat_map (handled_rows w) ps)
   <= length (flat_map (data_rows w) ps))%nat.
Proof.
  induction ps as [|p ps IH]; [reflexivity|].
  cbn [flat_map]. rewrite entities_of_app, skips_of_app, !length_app.
  assert (Hp : (length (entities_of (handled_rows w p)) + skips_of (handled_rows w p)
                <= length (data_rows w p))%nat).
  { unfold handled_rows. rewrite handled_counts.
    destruct (handled_prefix (data_rows w p)) as [post Hpost].
    rewrite Hpost at 2. rewrite length_app. lia. }
  lia.
Qed.

(** X16: the processed count of the extraction is always the number of
    entities collected, and so of bookmark lines in the document, also when
    files fail midway; the count returned is that number or, when the write
    fails, 0, and the skipped count returned is that of the extraction. *)
Theorem processed_count_is_number_of_entities w ps out :
  let o := _convert_data_to_html_bookmarks w ps out in
  let st := extract w ps in
  processed_count st = length (bookmarks_data st)
  /\ count 60 (html_output o)
     = (count 60 (render BOOKMARK_TEMPLATE_CONTENT []) + 3 * processed_count st)%nat
  /\ (fst (returned o) = processed_count st \/ fst (returned o) = 0%nat)
  /\ snd (returned o) = skipped_archived_count st
  /\ (processed_count st + skipped_archived_count st
      <= length (flat_map (data_rows w) ps))%nat.
Proof.
  intros o st.
  assert (Hlen : processed_count st = length (bookmarks_data st))
    by (subst st; rewrite extract_spec; reflexivity).
  destruct (convert_returned w ps out) as [Hhtml Hret]. fold o st in Hhtml, Hret.
  split; [exact Hlen|]. split.
  { rewrite Hhtml, Hlen. apply count_bracket_render. auto. }
  assert (Hle : (processed_count st + skipped_archived_count st
                 <= length (flat_map (data_rows w) ps))%nat).
  { subst st. rewrite extract_spec. apply handled_at_most_data_rows. }
  destruct (write_file w out (html_output o)); destruct Hret as [-> _];
    cbn [fst snd]; auto.
Qed.

End MoreProperties.

(** ** The status of handled rows *)

Lemma dict_zip_lookup fieldnames rec i key v :
  NoDup fieldnames -> fieldnames !! i = Some key -> rec !! i = Some v ->
  dict_zip fieldnames rec !! key = Some (PyStr v).
Proof.
  unfold dict_zip. generalize (∅ : gmap str pyval) as d.
  revert rec i. induction fieldnames as [|x f IH]; intros rec i d Hnd Hf Hr;
    [discriminate Hf|].
  destruct rec as [|y rec]; [discriminate Hr|].
  apply NoDup_cons in Hnd as [Hx Hnd]. destruct i as [|i]; cbn [zip_with foldl].
  - injection Hf as ->. injection Hr as ->.
    rewrite foldl_zip_lookup_ne; [apply lookup_insert_eq|].
    intros Hin. apply in_fst_zip in Hin. apply Hx, list_elem_of_In, Hin.
  - exact (IH rec i _ Hnd Hf Hr).
Qed.

(** With distinct header names, a row holds under a name the field of its
    record at the name's column. *)
Lemma make_row_lookup_field fieldnames rec i key v :
  NoDup fieldnames -> fieldnames !! i = Some key -> rec !! i = Some v ->
  cols (make_row fieldnames rec) !! key = Some (PyStr v).
Proof.
  intros Hnd Hf Hr. pose proof (dict_zip_lookup _ _ _ _ _ Hnd Hf Hr) as Hz.
  unfold make_row. cbv zeta.
  destruct (length fieldnames <? length rec)%nat; [exact Hz|].
  destruct (length rec <? length fieldnames)%nat; [|exact Hz].
  cbn [cols]. rewrite foldl_insert_lookup_ne; [exact Hz|].
  intros Hin. apply list_elem_of_In, list_elem_of_lookup in Hin as [j Hj].
  rewrite lookup_drop in Hj.
  pose proof (NoDup_lookup _ _ _ _ Hnd Hf Hj) as Hij.
  apply lookup_lt_Some in Hr. lia.
Qed.

Section StatusProperties.

Context `{UnicodeData}.

Lemma process_row_by_status_text r :
  process_row r
  = match status_text r with
    | None => Row_raised AttributeError_strip
    | Some s =>
        if str_eqb (lower (strip s)) (lit "archive") then Row_skipped
        else Row_entity {| url := dict_get r (lit "url") (PyStr []);
                           title := dict_get r (lit "title") (PyStr []);
                           add_date := dict_get r (lit "time_added") (PyStr []);
                           tags := dict_get r (lit "tags") (PyStr []);
                           toread := true |}
    end.
Proof.
  unfold process_row, dict_get, status_text.
  destruct (cols r !! lit "status") as [[|s]|]; reflexivity.
Qed.

Lemma archived_iff_skipped r : archived r = true <-> process_row r = Row_skipped.
Proof.
  rewrite process_row_by_status_text. unfold archived.
  destruct (status_text r) as [s|]; [|split; discriminate].
  destruct (str_eqb _ _); split; try reflexivity; discriminate.
Qed.

Lemma entity_not_archived r b : process_row r = Row_entity b -> archived r = false.
Proof.
  intros Hb. destruct (archived r) eqn:Ha; [|reflexivity].
  apply archived_iff_skipped in Ha. congruence.
Qed.

Lemma counts_by_status rows :
  (forall r, In r rows ->
             process_row r = Row_skipped \/ exists b, process_row r = Row_entity b) ->
  skips_of rows = length (List.filter archived rows)
  /\ entities_of rows = entities_of (List.filter (fun r => negb (archived r)) rows)
  /\ length (entities_of rows)
     = length (List.filter (fun r => negb (archived r)) rows)
  /\ entities_of (List.filter archived rows) = [].
Proof.
  induction rows as [|r rows IH]; intros Hall; [repeat split|].
  destruct (IH (fun r0 Hin => Hall r0 (or_intror Hin))) as (I1 & I2 & I3 & I4).
  rewrite entities_of_cons, skips_of_cons. cbn [List.filter].
  destruct (Hall r (or_introl eq_refl)) as [Hs|[b Hb]].
  - rewrite Hs. rewrite (proj2 (archived_iff_skipped r) Hs). cbn [negb length].
    rewrite entities_of_cons, Hs. auto.
  - rewrite Hb. rewrite (entity_not_archived r b Hb). cbn [negb length].
    rewrite entities_of_cons, Hb. cbn [length]. rewrite I2 at 1. auto.
Qed.

(** C2 (amended): every data row the loop handles (a row of a readable file
    before the first row of that file that raises) has a status text, and
    is skipped (the skip counter goes up by one, no entity is made) exactly
    when that text, stripped and lowered, is the literal archive; the three
    spellings of the specification are skipped; a handled row with any
    other status gives exactly one entity and raises the processed counter
    by one.  So the skipped count of a run is the number of handled rows
    with an archive status and the entities are those of the other handled
    rows, in order.  With distinct header names the status text of a row is
    the field of its record in the status column. *)
Theorem handled_row_skipped_iff_archive w ps :
  let hs := flat_map (handled_rows w) ps in
  let st := extract w ps in
  (forall r, In r hs ->
     exists s, status_text r = Some s
               /\ (process_row r = Row_skipped <-> lower (strip s) = lit "archive")
               /\ (lower (strip s) <> lit "archive" ->
                   exists b, process_row r = Row_entity b))
  /\ skipped_archived_count st = length (List.filter archived hs)
  /\ bookmarks_data st = entities_of (List.filter (fun r => negb (archived r)) hs)
  /\ processed_count st = length (List.filter (fun r => negb (archived r)) hs)
  /\ entities_of (List.filter archived hs) = []
  /\ (forall r rest st0 s,
        status_text r = Some s -> lower (strip s) = lit "archive" ->
        for_rows (r :: rest) st0
        = for_rows rest {| processed_count := processed_count st0;
                           skipped_archived_count := S (skipped_archived_count st0);
                           bookmarks_data := bookmarks_data st0;
                           console := console st0 |})
  /\ (forall r rest st0 s,
        status_text r = Some s -> lower (strip s) <> lit "archive" ->
        exists b,
          process_row r = Row_entity b
          /\ for_rows (r :: rest) st0
             = for_rows rest {| processed_count := S (processed_count st0);
                                skipped_archived_count := skipped_archived_count st0;
                                bookmarks_data := bookmarks_data st0 ++ [b];
                                console := console st0 |})
  /\ (forall s, In s [lit "Archive"; lit " archive "; lit "ARCHIVE"] ->
                lower (strip s) = lit "archive")
  /\ (forall fieldnames rec i s,
        NoDup fieldnames -> fieldnames !! i = Some (lit "status") ->
        rec !! i = Some s ->
        status_text (make_row fieldnames rec) = Some s).
Proof.
  intros hs st.
  assert (Hhandled : forall r, In r hs ->
            process_row r = Row_skipped \/ exists b, process_row r = Row_entity b).
  { intros r Hin. apply in_flat_map in Hin as (p & _ & Hin).
    exact (handled_not_raised _ _ Hin). }
  destruct (counts_by_status hs Hhandled) as (Hskips & Hents & Hlen & Hnone).
  split.
  { intros r Hin. specialize (Hhandled r Hin).
    rewrite process_row_by_status_text in *.
    destruct (status_text r) as [s|]; [|destruct Hhandled as [?|[? ?]]; discriminate].
    exists s. split; [reflexivity|]. unfold str_eqb.
    case_bool_decide as Ha; split.
    - tauto.
    - contradiction.
    - split; [discriminate|contradiction].
    - eauto. }
  split; [subst st; rewrite extract_spec; exact Hskips|].
  split; [subst st; rewrite extract_spec; exact Hents|].
  split; [subst st; rewrite extract_spec; exact Hlen|].
  split; [exact Hnone|].
  split.
  { intros r rest st0 s Hs Ha. cbn [for_rows].
    rewrite process_row_by_status_text, Hs, Ha. reflexivity. }
  split.
  { intros r rest st0 s Hs Ha. cbn [for_rows].
    rewrite process_row_by_status_text, Hs. unfold str_eqb.
    case_bool_decide; [contradiction|]. eexists. split; reflexivity. }
  split.
  { intros s [<-|[<-|[<-|[]]]]; vm_compute; reflexivity. }
  intros fieldnames rec i s Hnd Hf Hr. unfold status_text.
  rewrite (make_row_lookup_field _ _ _ _ _ Hnd Hf Hr). reflexivity.
Qed.

End StatusProperties.

(** ** The claims on the example inputs *)

#[local] Existing Instance ascii_casing.

Example specification_example :
  let o := _convert_data_to_html_bookmarks writable_world [lit "pocket.csv"] (lit "out.html") in
  returned o = (1%nat, 1%nat)
  /\ html_output o
     = preamble
       ++ nl ++ lit "    <DT><A HREF=" ++ dq ++ lit "http://a.com" ++ dq
       ++ lit " ADD_DATE=" ++ dq ++ lit "100" ++ dq
       ++ lit " TAGS=" ++ dq ++ lit "x,y" ++ dq
       ++ lit " TOREAD=" ++ dq ++ lit "yes" ++ dq ++ lit ">A</A>" ++ nl
       ++ nl ++ lit "</DL><p>"
  /\ occurs (lit "b.com") (html_output o) = false.
Proof. vm_compute. repeat split. Qed.

Lemma example_files_raise_nothing p content :
  In p [lit "pocket.csv"; lit "missing.csv"; lit "no_tags.csv"] ->
  example_files p = inr content ->
  file_error content = None.
Proof.
  intros [<-|[<-|[<-|[]]]] Hread; vm_compute in Hread;
    [|discriminate Hread|]; injection Hread as <-; vm_compute; reflexivity.
Qed.

Lemma counts_cover_data_rows_example :
  let w := writable_world in
  let ps := [lit "pocket.csv"; lit "missing.csv"; lit "no_tags.csv"] in
  let o := _convert_data_to_html_bookmarks w ps (lit "out.html") in
  write_file w (lit "out.html") (html_output o) = None
  /\ (forall p content,
         In p ps -> read_file w p = inr content -> file_error content = None)
  /\ (fst (returned o) + snd (returned o))%nat = length (flat_map (data_rows w) ps)
  /\ fst (returned o) = length (entities_of (flat_map (data_rows w) ps))
  /\ snd (returned o) = skips_of (flat_map (data_rows w) ps)
  /\ bookmarks_data (extract w ps) = entities_of (flat_map (data_rows w) ps)
  /\ (forall r, In r (flat_map (data_rows w) ps) ->
                process_row r = Row_skipped \/ exists b, process_row r = Row_entity b).
Proof.
  split; [reflexivity|]. split; [exact example_files_raise_nothing|].
  exact (counts_cover_data_rows writable_world
           [lit "pocket.csv"; lit "missing.csv"; lit "no_tags.csv"] (lit "out.html")
           eq_refl example_files_raise_nothing).
Defined.

(** C1 (as stated) fails: a data row without a status field is neither
    skipped nor made an entity, and a run whose write fails returns 0 as its
    processed count. *)
Lemma returned_counts_miss_data_rows :
  (let o := _convert_data_to_html_bookmarks writable_world [lit "short.csv"] (lit "out.html") in
   read_file writable_world (lit "short.csv") = inr short_row_csv
   /\ length (data_rows writable_world (lit "short.csv")) = 2%nat
   /\ (fst (returned o) + snd (returned o))%nat = 1%nat)
  /\ (let o := _convert_data_to_html_bookmarks unwritable_world [lit "pocket.csv"] (lit "out.html") in
      read_file unwritable_world (lit "pocket.csv") = inr pocket_csv
      /\ length (data_rows unwritable_world (lit "pocket.csv")) = 2%nat
      /\ (fst (returned o) + snd (returned o))%nat = 1%nat).
Proof. vm_compute. repeat split. Qed.

Lemma failing_file_keeps_earlier_rows_example :
  let w := writable_world in
  let st' := process_file w initial (lit "short.csv") in
  let kept := handled (file_rows short_row_csv) in
  read_file w (lit "short.csv") = inr short_row_csv
  /\ file_error short_row_csv = Some AttributeError_strip
  /\ console st' = console initial
                   ++ [Echo_processing (lit "short.csv");
                       error_message (lit "short.csv") AttributeError_strip]
  /\ bookmarks_data st' = bookmarks_data initial ++ entities_of kept
  /\ processed_count st' = (processed_count initial + length (entities_of kept))%nat
  /\ skipped_archived_count st' = (skipped_archived_count initial + skips_of kept)%nat
  /\ (length (entities_of kept) + skips_of kept)%nat = length kept
  /\ (exists post, file_rows short_row_csv = kept ++ post)
  /\ (forall rest, foldl (process_file w) initial (lit "short.csv" :: rest)
                   = foldl (process_file w) st' rest).
Proof.
  split; [reflexivity|]. split; [vm_compute; reflexivity|].
  refine (failing_file_keeps_earlier_rows writable_world initial (lit "short.csv")
            short_row_csv AttributeError_strip eq_refl _).
  vm_compute; reflexivity.
Defined.

(** C5 (as stated) fails: the file whose second row raises still gives the
    entity and the processed increment of its first row. *)
Lemma failing_file_contributes_rows :
  let st := extract writable_world [lit "short.csv"] in
  let o := _convert_data_to_html_bookmarks writable_world [lit "short.csv"] (lit "out.html") in
  read_file writable_world (lit "short.csv") = inr short_row_csv
  /\ console st = [Echo_processing (lit "short.csv");
                   Error_processing (lit "short.csv") AttributeError_strip]
  /\ bookmarks_data st
     = [ {| url := PyStr (lit "http://a"); title := PyStr [];
            add_date := PyStr []; tags := PyStr []; toread := true |} ]
  /\ processed_count st = 1%nat
  /\ returned o = (1%nat, 0%nat).
Proof. vm_compute. repeat split. Qed.

Lemma write_failure_returns_zero_processed_example :
  let w := unwritable_world in
  let ps := [lit "pocket.csv"] in
  let o := _convert_data_to_html_bookmarks w ps (lit "out.html") in
  write_file w (lit "out.html") (html_output o) = Some permission_denied
  /\ events o = console (extract w ps)
                ++ [Write_file (lit "out.html") (html_output o);
                    Error_writing (lit "out.html") permission_denied]
  /\ html_output o = render BOOKMARK_TEMPLATE_CONTENT (bookmarks_data (extract w ps))
  /\ returned o = (0%nat, skipped_archived_count (extract w ps)).
Proof.
  split; [reflexivity|].
  exact (write_failure_returns_zero_processed unwritable_world [lit "pocket.csv"]
           (lit "out.html") permission_denied eq_refl).
Defined.

(** C6 (as stated) fails: the extraction processed one bookmark, and the
    run whose write fails returns 0 as its processed count. *)
Lemma write_failure_drops_processed_count :
  let o := _convert_data_to_html_bookmarks unwritable_world [lit "pocket.csv"] (lit "out.html") in
  write_file unwritable_world (lit "out.html") (html_output o) = Some permission_denied
  /\ processed_count (extract unwritable_world [lit "pocket.csv"]) = 1%nat
  /\ skipped_archived_count (extract unwritable_world [lit "pocket.csv"]) = 1%nat
  /\ returned o = (0%nat, 1%nat).
Proof. vm_compute. repeat split. Qed.


Lemma copied_file_reads_alike :
  map (read_file writable_world) [lit "pocket.csv"; lit "missing.csv"]
  = map (read_file revision_world) [lit "copy.csv"; lit "absent.csv"].
Proof. vm_compute. reflexivity. Qed.

Lemma copied_file_writes_alike :
  bool_decide
    (write_file writable_world (lit "a.html")
       (html_output
          (_convert_data_to_html_bookmarks writable_world
             [lit "pocket.csv"; lit "missing.csv"] (lit "a.html"))) = None)
  = bool_decide
      (write_file revision_world (lit "b.html")
         (html_output
            (_convert_data_to_html_bookmarks revision_world
               [lit "copy.csv"; lit "absent.csv"] (lit "b.html"))) = None).
Proof. vm_compute. reflexivity. Qed.

Lemma conversion_is_deterministic_example :
  let ps1 := [lit "pocket.csv"; lit "missing.csv"] in
  let ps2 := [lit "copy.csv"; lit "absent.csv"] in
  let o1 := _convert_data_to_html_bookmarks writable_world ps1 (lit "a.html") in
  let o2 := _convert_data_to_html_bookmarks revision_world ps2 (lit "b.html") in
  map (read_file writable_world) ps1 = map (read_file revision_world) ps2
  /\ bool_decide (write_file writable_world (lit "a.html") (html_output o1) = None)
     = bool_decide (write_file revision_world (lit "b.html") (html_output o2) = None)
  /\ html_output o1 = html_output o2
  /\ bookmarks_data (extract writable_world ps1) = bookmarks_data (extract revision_world ps2)
  /\ processed_count (extract writable_world ps1) = processed_count (extract revision_world ps2)
  /\ skipped_archived_count (extract writable_world ps1)
     = skipped_archived_count (extract revision_world ps2)
  /\ snd (returned o1) = snd (returned o2)
  /\ returned o1 = returned o2.
Proof.
  pose proof (conversion_is_deterministic writable_world revision_world
                [lit "pocket.csv"; lit "missing.csv"] [lit "copy.csv"; lit "absent.csv"]
                (lit "a.html") (lit "b.html") copied_file_reads_alike) as Hdet.
  cbv zeta in Hdet. destruct Hdet as (H1 & H2 & H3 & H4 & H5 & H6).
  split; [exact copied_file_reads_alike|]. split; [exact copied_file_writes_alike|].
  split; [exact H1|]. split; [exact H2|]. split; [exact H3|]. split; [exact H4|].
  split; [exact H5|]. exact (H6 copied_file_writes_alike).
Defined.

Example copied_file_returns_alike :
  returned (_convert_data_to_html_bookmarks writable_world
              [lit "pocket.csv"; lit "missing.csv"] (lit "a.html")) = (1%nat, 1%nat)
  /\ returned (_convert_data_to_html_bookmarks revision_world
                 [lit "copy.csv"; lit "absent.csv"] (lit "b.html")) = (1%nat, 1%nat).
Proof. vm_compute. split; reflexivity. Qed.

(** C9 (as stated) fails: two runs over the same path with the same content
    render the same document but return different processed counts when
    only one of them can write its output. *)
Lemma returned_counts_depend_on_write :
  let ps := [lit "pocket.csv"] in
  let o1 := _convert_data_to_html_bookmarks writable_world ps (lit "out.html") in
  let o2 := _convert_data_to_html_bookmarks unwritable_world ps (lit "out.html") in
  map (read_file writable_world) ps = map (read_file unwritable_world) ps
  /\ html_output o1 = html_output o2
  /\ returned o1 = (1%nat, 1%nat)
  /\ returned o2 = (0%nat, 1%nat).
Proof. vm_compute. repeat split. Qed.

(** C2 (as stated) fails: after a data row that raises, a row whose status
    is archive is not counted as skipped and a row with another status gives
    no entity, although the loop body would skip the one and make an entity
    of the other. *)
Lemma rows_after_a_failure_are_not_handled :
  let rows := data_rows revision_world (lit "after_failure.csv") in
  let st := extract revision_world [lit "after_failure.csv"] in
  let o := _convert_data_to_html_bookmarks revision_world [lit "after_failure.csv"]
             (lit "out.html") in
  read_file revision_world (lit "after_failure.csv") = inr rows_after_failure_csv
  /\ map status_text rows = [None; Some (lit "archive"); Some (lit "unread")]
  /\ map process_row rows
     = [ Row_raised AttributeError_strip; Row_skipped;
         Row_entity {| url := PyStr (lit "http://c"); title := PyStr [];
                       add_date := PyStr []; tags := PyStr []; toread := true |} ]
  /\ skipped_archived_count st = 0%nat
  /\ bookmarks_data st = []
  /\ returned o = (0%nat, 0%nat).
Proof. vm_compute. repeat split. Qed.

(** C7 (the code on the failing input): the data row ends before the tags
    column of its header, so the reader gives None for it, the default of
    get is not used, the entity has None as its tags and the document shows
    the text None; nothing is reported on the console. *)
Theorem short_row_tags_are_none :
  let st := extract revision_world [lit "short_tags.csv"] in
  let o := _convert_data_to_html_bookmarks revision_world [lit "short_tags.csv"]
             (lit "out.html") in
  read_file revision_world (lit "short_tags.csv") = inr short_tags_csv
  /\ header_of short_tags_csv = Some [lit "status"; lit "url"; lit "tags"]
  /\ bookmarks_data st
     = [ {| url := PyStr (lit "http://a"); title := PyStr []; add_date := PyStr [];
            tags := PyNone; toread := true |} ]
  /\ console st = [Echo_processing (lit "short_tags.csv")]
  /\ occurs (lit "TAGS=" ++ dq ++ lit "None" ++ dq) (html_output o) = true
  /\ returned o = (1%nat, 0%nat).
Proof. vm_compute. repeat split. Qed.

Lemma example_files_give_no_entity p :
  In p [lit "missing.csv"; lit "header_only.csv"] ->
  (exists e, read_file writable_world p = inl e)
  \/ entities_of (handled_rows writable_world p) = [].
Proof.
  intros [<-|[<-|[]]]; [left; exists FileNotFoundError|right]; reflexivity.
Qed.

Lemma empty_extraction_still_writes_document_example :
  let w := writable_world in
  let ps := [lit "missing.csv"; lit "header_only.csv"] in
  let out := lit "out.html" in
  let o := _convert_data_to_html_bookmarks w ps out in
  (forall p, In p ps ->
             (exists e, read_file w p = inl e)
             \/ entities_of (handled_rows w p) = [])
  /\ bookmarks_data (extract w ps) = []
  /\ html_output o = preamble ++ nl ++ lit "</DL><p>"
  /\ starts_with (lit "<!DOCTYPE NETSCAPE-Bookmark-file-1>") (html_output o) = true
  /\ In (Write_file out (preamble ++ nl ++ lit "</DL><p>")) (events o).
Proof.
  split; [exact example_files_give_no_entity|].
  exact (empty_extraction_still_writes_document writable_world
           [lit "missing.csv"; lit "header_only.csv"] (lit "out.html")
           example_files_give_no_entity).
Defined.

(** ** The further properties on the example inputs *)

Lemma header_without_status_keeps_every_row_example :
  header_of capital_status_csv = Some [lit "Status"; lit "url"]
  /\ ~ In (lit "status") [lit "Status"; lit "url"]
  /\ first_raise (file_rows capital_status_csv) = None
  /\ handled (file_rows capital_status_csv) = file_rows capital_status_csv
  /\ skips_of (file_rows capital_status_csv) = 0%nat
  /\ length (entities_of (file_rows capital_status_csv))
     = length (file_rows capital_status_csv).
Proof.
  assert (Hh : header_of capital_status_csv = Some [lit "Status"; lit "url"])
    by (vm_compute; reflexivity).
  assert (Hnot : ~ In (lit "status") [lit "Status"; lit "url"])
    by (vm_compute; intros [Heq|[Heq|[]]]; discriminate Heq).
  split; [exact Hh|]. split; [exact Hnot|].
  exact (header_without_status_keeps_every_row capital_status_csv
           [lit "Status"; lit "url"] Hh Hnot).
Defined.

Lemma short_row_fields_are_none_example :
  let fieldnames := [lit "status"; lit "url"; lit "title"] in
  let rec := [lit "unread"] in
  let b := {| url := PyNone; title := PyNone; add_date := PyStr [];
              tags := PyStr []; toread := true |} in
  process_row (make_row fieldnames rec) = Row_entity b
  /\ (In (lit "url") (drop (length rec) fieldnames) -> url b = PyNone)
  /\ (In (lit "title") (drop (length rec) fieldnames) -> title b = PyNone)
  /\ (In (lit "time_added") (drop (length rec) fieldnames) -> add_date b = PyNone)
  /\ (In (lit "tags") (drop (length rec) fieldnames) -> tags b = PyNone)
  /\ (url b = PyNone ->
      exists pre post,
        anchor_line b = pre ++ (lit "HREF=" ++ dq ++ lit "None" ++ dq) ++ post).
Proof.
  assert (Hb : process_row (make_row [lit "status"; lit "url"; lit "title"]
                              [lit "unread"])
               = Row_entity {| url := PyNone; title := PyNone; add_date := PyStr [];
                               tags := PyStr []; toread := true |})
    by (vm_compute; reflexivity).
  split; [exact Hb|].
  exact (short_row_fields_are_none [lit "status"; lit "url"; lit "title"]
           [lit "unread"] _ Hb).
Defined.

Lemma padded_any_case_archive_is_skipped_example :
  forallb isspace [9; 32] = true
  /\ forallb isspace [32; 160] = true
  /\ ascii_lower <$> lit "ArChIvE" = lit "archive"
  /\ dict_get padded_status_row (lit "status") (PyStr [])
     = PyStr ([9; 32] ++ lit "ArChIvE" ++ [32; 160])
  /\ process_row padded_status_row = Row_skipped.
Proof.
  assert (Hget : dict_get padded_status_row (lit "status") (PyStr [])
                 = PyStr ([9; 32] ++ lit "ArChIvE" ++ [32; 160]))
    by (vm_compute; reflexivity).
  split; [reflexivity|]. split; [reflexivity|].
  split; [vm_compute; reflexivity|]. split; [exact Hget|].
  exact (padded_any_case_archive_is_skipped padded_status_row [9; 32]
           (lit "ArChIvE") [32; 160] eq_refl eq_refl eq_refl Hget).
Defined.

Lemma splitlines_unlines_example :
  let lines := [lit "url,status"; []; lit "http://a,unread"] in
  is_line_ending [13; 10] = true
  /\ is_line_ending [10] = true
  /\ Forall (fun l => no_linebreak l = true) lines
  /\ no_linebreak (lit "http://b,archive") = true
  /\ splitlines (unlines [13; 10] lines ++ lit "http://b,archive")
     = lines ++ [lit "http://b,archive"]
  /\ splitlines (unlines [13; 10] lines ++ lit "http://b,archive")
     = splitlines (unlines [10] lines ++ lit "http://b,archive").
Proof.
  assert (Hlines : Forall (fun l => no_linebreak l = true)
                     [lit "url,status"; []; lit "http://a,unread"])
    by (repeat constructor).
  split; [reflexivity|]. split; [reflexivity|]. split; [exact Hlines|].
  split; [reflexivity|].
  exact (splitlines_unlines [13; 10] [10]
           [lit "url,status"; []; lit "http://a,unread"]
           (lit "http://b,archive") eq_refl eq_refl Hlines eq_refl).
Defined.

Lemma Forall_of_forallb {A} (f : A -> bool) (l : list A) :
  forallb f l = true -> Forall (fun x => f x = true) l.
Proof.
  intros Hf. apply List.Forall_forall. intros x Hin.
  exact (proj1 (forallb_forall f l) Hf x Hin).
Qed.

Lemma written_records_writable :
  Forall (fun rec => writable_record rec = true) written_records.
Proof. apply Forall_of_forallb. vm_compute. reflexivity. Qed.

Lemma written_file_well_formed :
  Forall (fun rec => writable_record rec = true
                     /\ Forall (fun f => no_linebreak f = true) (record_fields rec))
         (written_header :: written_data).
Proof.
  assert (Hb : Forall (fun rec => writable_record rec
                                  && forallb no_linebreak (record_fields rec) = true)
                 (written_header :: written_data))
    by (apply Forall_of_forallb; vm_compute; reflexivity).
  apply List.Forall_forall. intros rec Hin.
  rewrite List.Forall_forall in Hb. specialize (Hb rec Hin).
  apply andb_true_iff in Hb as [Hw Hl]. split; [exact Hw|].
  apply Forall_of_forallb. exact Hl.
Qed.

Lemma reader_reads_back_written_records_example :
  Forall (fun rec => writable_record rec = true) written_records
  /\ csv_reader (record_line <$> written_records)
     = (record_fields <$> written_records, None)
  /\ (forall more,
        csv_reader ((record_line <$> written_records) ++ more)
        = ((record_fields <$> written_records) ++ (csv_reader more).1,
           (csv_reader more).2)).
Proof.
  split; [exact written_records_writable|].
  exact (reader_reads_back_written_records written_records written_records_writable).
Defined.

Lemma oversized_field_is_plain : plain_field oversized_field = true.
Proof.
  unfold oversized_field, plain_field.
  induction (N.to_nat 131073) as [|n IH]; [reflexivity|]. exact IH.
Qed.

Lemma oversized_field_is_over : field_limit < N.of_nat (length oversized_field).
Proof.
  unfold oversized_field. rewrite repeat_length, N2Nat.id. reflexivity.
Qed.

Lemma oversized_field_raises_example :
  Forall (fun rec => writable_record rec = true) written_records
  /\ plain_field oversized_field = true
  /\ field_limit < N.of_nat (length oversized_field)
  /\ csv_reader ((record_line <$> written_records)
                 ++ (oversized_field ++ lit ",x") :: [lit "a,b"])
     = (record_fields <$> written_records, Some CsvError_field_limit).
Proof.
  split; [exact written_records_writable|]. split; [exact oversized_field_is_plain|].
  split; [exact oversized_field_is_over|].
  exact (oversized_field_raises written_records oversized_field (lit ",x")
           [lit "a,b"] written_records_writable oversized_field_is_plain
           oversized_field_is_over).
Defined.

Lemma written_file_rows_example :
  is_line_ending [13; 10] = true
  /\ Forall (fun rec => writable_record rec = true
                        /\ Forall (fun f => no_linebreak f = true) (record_fields rec))
            (written_header :: written_data)
  /\ strip_bom written_csv
     = unlines [13; 10] (record_line <$> written_header :: written_data)
  /\ header_of written_csv = Some (record_fields written_header)
  /\ file_rows written_csv
     = make_row (record_fields written_header)
         <$> filter (fun r => r <> []) (record_fields <$> written_data)
  /\ (DictReader (splitlines (strip_bom written_csv))).2 = None.
Proof.
  split; [reflexivity|]. split; [exact written_file_well_formed|].
  split; [reflexivity|].
  exact (written_file_rows written_csv [13; 10] written_header written_data
           eq_refl written_file_well_formed eq_refl).
Defined.

Lemma line_break_in_quoted_field_is_dropped_example :
  islinebreak 10 = true
  /\ no_linebreak (lit "two") = true
  /\ no_linebreak (lit "lines") = true
  /\ N.of_nat (length (lit "two" ++ lit "lines")) <= field_limit
  /\ quoted (lit "two" ++ [10] ++ lit "lines")
     = (quotechar :: double_quotes (lit "two")) ++ [10]
       ++ double_quotes (lit "lines") ++ [quotechar]
  /\ csv_reader (splitlines (quoted (lit "two" ++ [10] ++ lit "lines")))
     = ([[lit "two" ++ lit "lines"]], None).
Proof.
  assert (Hlen : N.of_nat (length (lit "two" ++ lit "lines")) <= field_limit)
    by (vm_compute; discriminate).
  split; [reflexivity|]. split; [reflexivity|]. split; [reflexivity|].
  split; [exact Hlen|].
  exact (line_break_in_quoted_field_is_dropped (lit "two") 10 (lit "lines")
           eq_refl eq_refl eq_refl Hlen).
Defined.

Lemma convert_after_write_failure_example :
  let o := _convert_data_to_html_bookmarks unwritable_world [lit "pocket.csv"]
             (lit "out.html") in
  write_file unwritable_world (lit "out.html") (html_output o) = Some permission_denied
  /\ convert unwritable_world stale_output [lit "pocket.csv"] (lit "out.html")
     = Starting
       :: (Core <$> console (extract unwritable_world [lit "pocket.csv"]))
       ++ [ Core (Write_file (lit "out.html") (html_output o));
            Core (Error_writing (lit "out.html") permission_denied) ]
       ++ (if stale_output (lit "out.html")
           then [ Conversion_complete; Processed_line 0;
                  Skipped_line (skipped_archived_count
                                  (extract unwritable_world [lit "pocket.csv"]));
                  Saved_as (lit "out.html") ]
           else [ Nothing_processed ]).
Proof.
  split; [reflexivity|].
  exact (convert_after_write_failure unwritable_world stale_output
           [lit "pocket.csv"] (lit "out.html") permission_denied eq_refl).
Defined.

Lemma convert_after_write_success_example :
  let o := _convert_data_to_html_bookmarks writable_world [lit "header_only.csv"]
             (lit "out.html") in
  write_file writable_world (lit "out.html") (html_output o) = None
  /\ stale_output (lit "out.html") = true
  /\ convert writable_world stale_output [lit "header_only.csv"] (lit "out.html")
     = Starting
       :: (Core <$> console (extract writable_world [lit "header_only.csv"]))
       ++ [ Core (Write_file (lit "out.html") (html_output o));
            Conversion_complete;
            Processed_line (processed_count
                              (extract writable_world [lit "header_only.csv"]));
            Skipped_line (skipped_archived_count
                            (extract writable_world [lit "header_only.csv"]));
            Saved_as (lit "out.html") ].
Proof.
  split; [reflexivity|]. split; [reflexivity|].
  exact (convert_after_write_success writable_world stale_output
           [lit "header_only.csv"] (lit "out.html") eq_refl eq_refl).
Defined.
